(** * Virtual-Avatar: capture schedulers, availability gate and fusion polling

    A shallow embedding of the sensing client of the Virtual-Avatar
    repository (React hooks written in JavaScript) and the properties its
    specification states about it.

    Conventions of the embedding.
    - A JavaScript number that carries a measurement (a score, an RMS
      reading, an age, an interval) is an exact rational [Q]; equalities
      between such numbers are stated with [==].  Counters and array
      lengths are [nat]; millisecond clocks read with [Date.now()] and the
      backoff delays built from integer constants are [Z].
    - A JavaScript object used as a dictionary is an association list of
      its own properties in insertion order, which is the order
      [Object.entries] walks for keys that are not array indices.  Keys
      inherited from [Object.prototype] are outside the model: the keys are
      the classifier's emotion names.
    - An [async] function is a function of the answers its awaits receive
      (an environment record) that returns the list of effects it performs,
      in program order, together with the new values of the refs it
      writes. *)

From Stdlib Require Import ZArith QArith Qminmax Qabs Lqa Lia List String Ascii Bool.
From Stdlib Require Import DecimalString.
From Stdlib Require Import Permutation Sorted.
Import ListNotations.

(* ================================================================== *)
(** * Part I: the program                                              *)
(* ================================================================== *)

(** ** JavaScript values shared by the modules *)

Module Js.

(** [Number(n)] for a counter or a length. *)
Definition Qnat (n : nat) : Q := inject_Z (Z.of_nat n).

(** [x || d] on numbers: [0] is falsy. *)
Definition num_or (x d : Q) : Q := if Qeq_bool x 0 then d else x.

(** [s || d] on strings: the empty string is falsy. *)
Definition str_or (s d : string) : string :=
  match s with EmptyString => d | _ => s end.

(** [o[k] || d] for a counter property: a missing property and [0] are
    falsy. *)
Definition prop_or (x : option nat) (d : nat) : nat :=
  match x with
  | Some (S n) => S n
  | _ => d
  end.

(** An object used as a dictionary: own properties, insertion order. *)
Definition obj (V : Type) : Type := list (string * V).

Fixpoint obj_get {V : Type} (o : obj V) (k : string) : option V :=
  match o with
  | [] => None
  | (k', v) :: rest => if String.eqb k k' then Some v else obj_get rest k
  end.

(** [o[k] = v]: an existing property keeps its place, a new one goes last. *)
Fixpoint obj_set {V : Type} (o : obj V) (k : string) (v : V) : obj V :=
  match o with
  | [] => [(k, v)]
  | (k', v') :: rest =>
      if String.eqb k k' then (k', v) :: rest else (k', v') :: obj_set rest k v
  end.

(** [x < y] on numbers. *)
Definition Qltb (x y : Q) : bool := negb (Qle_bool y x).

(** [s.toLowerCase()] on ASCII letters. *)
Definition lower_ascii (c : ascii) : ascii :=
  let n := nat_of_ascii c in
  if ((65 <=? n) && (n <=? 90))%nat then ascii_of_nat (n + 32) else c.

Fixpoint toLowerCase (s : string) : string :=
  match s with
  | EmptyString => EmptyString
  | String c rest => String (lower_ascii c) (toLowerCase rest)
  end.

(** [s.includes(sub)]. *)
Definition includes (s sub : string) : bool :=
  match String.index 0 sub s with
  | Some _ => true
  | None => false
  end.

(** [response.ok]: the status is in the range 200-299. *)
Definition response_ok (status : Z) : bool :=
  ((200 <=? status) && (status <=? 299))%Z.

(** [arr.reduce((a, b) => a + b, 0)]. *)
Definition sum (l : list Q) : Q := fold_left Qplus l 0.

End Js.

(** ** src/pepper_connect/src/lib/pepperState.jsx *)

Module PepperState.

(** What [GET /pepper/status] answers to the client. *)
Inductive status_reply : Type :=
| FetchRejects                 (* [fetch] throws: network error *)
| HttpError (status : Z)       (* [response.ok] is false *)
| BodyRejects                  (* [response.json()] throws, or the body is [null] *)
| Body (proce : option Z).     (* parsed body; [None]: no numeric [proce] *)

(** [data.proce === 1]. *)
Definition proce_is_1 (proce : option Z) : bool :=
  match proce with
  | Some p => (p =? 1)%Z
  | None => false
  end.

Definition isPepperAvailable (room : string) (reply : status_reply) : bool :=
  match reply with
  | FetchRejects => true       (* catch: default to available *)
  | HttpError _ => true        (* !response.ok: default to available *)
  | BodyRejects => true        (* catch *)
  | Body proce => proce_is_1 proce
  end.

Definition isPepperAvailableForAudio (room : string) (reply : status_reply) : bool :=
  match reply with
  | FetchRejects => true
  | HttpError _ => true
  | BodyRejects => true
  | Body proce => proce_is_1 proce
  end.

Definition isPepperBusy (room : string) (reply : status_reply) : bool :=
  negb (isPepperAvailable room reply).

(** The status request failed: no answer, or an answer that is not OK. *)
Definition request_failed (reply : status_reply) : Prop :=
  reply = FetchRejects \/ exists status, reply = HttpError status.

End PepperState.

(** ** src/pepper_connect/src/hooks/useFaceYolo.jsx *)

Module FaceYolo.
Import Js.
Local Open Scope string_scope.
Local Open Scope Q_scope.

Definition WINDOW_DURATION_MS : Z := 4000.
Definition FRAMES_PER_WINDOW : nat := 60.
Definition BATCH_SIZE : nat := 10.

(** One analysed frame, [{label, score}]. *)
Record Frame : Type := mkFrame { label : string; score : Q }.

(** The object [aggregateFrames] returns.  The early return for an empty
    input has no [votes], [consensusRatio] or [details] property. *)
Record Aggregate : Type := mkAggregate {
  a_label : string;
  a_score : Q;
  confidence : Q;
  frameCount : nat;
  votes : option nat;
  consensusRatio : option Q;
  details : option (obj nat)
}.

(** The body of [frames.forEach(frame => ...)]: one vote and one pushed
    score for [frame.label || "neutral"]. *)
Definition count_frame (acc : obj nat * obj (list Q)) (frame : Frame)
  : obj nat * obj (list Q) :=
  let '(votes, scoresByEmotion) := acc in
  let emotion := str_or (label frame) "neutral" in
  let score := num_or (score frame) 0 in
  let votes' :=
    obj_set votes emotion (prop_or (obj_get votes emotion) 0 + 1)%nat in
  let scores' :=
    match obj_get scoresByEmotion emotion with
    | Some l => obj_set scoresByEmotion emotion (l ++ [score])%list
    | None => obj_set scoresByEmotion emotion [score]
    end in
  (votes', scores').

(** The body of [Object.entries(votes).forEach(([emotion, count]) => ...)]. *)
Definition pick_winner (acc : string * nat) (entry : string * nat)
  : string * nat :=
  let '(winnerEmotion, maxVotes) := acc in
  let '(emotion, count) := entry in
  if (maxVotes <? count)%nat then (emotion, count) else (winnerEmotion, maxVotes).

Definition aggregateFrames (frames : list Frame) : Aggregate :=
  match frames with
  | [] => mkAggregate "neutral" 0 0 0 None None None
  | _ =>
      let '(votes, scoresByEmotion) := fold_left count_frame frames ([], []) in
      let '(winnerEmotion, maxVotes) := fold_left pick_winner votes ("neutral", O) in
      let winnerScores :=
        match obj_get scoresByEmotion winnerEmotion with
        | Some l => l
        | None => [0]
        end in
      let avgScore := Js.sum winnerScores / Qnat (List.length winnerScores) in
      let consensusRatio := Qnat maxVotes / Qnat (List.length frames) in
      let confidence := avgScore * ((7 # 10) + (3 # 10) * consensusRatio) in
      mkAggregate winnerEmotion confidence confidence (List.length frames)
        (Some maxVotes) (Some consensusRatio) (Some votes)
  end.

(** *** The hook state and one run of [captureWindow] *)

(** The state the hook returns to its consumer. *)
Record HookState : Type := mkHookState {
  st_label : string;
  st_score : Q;
  st_ready : bool;
  st_error : option string;
  st_last : option Aggregate;
  st_frameCount : nat;
  st_consensusRatio : option Q;
  st_details : option (obj nat)
}.

(** [useState({label: "neutral", score: 0, ready: false, ...})], then
    [setState(s => ({...s, ready: false, error: null}))]. *)
Definition initial_state : HookState :=
  mkHookState "neutral" 0 false None None 0 (Some 0) (Some []).

Inductive effect : Type :=
| GateQuery (room : string)    (* [isPepperAvailable(room)] *)
| CaptureFrame                 (* [captureFrameLocally()] gave a frame *)
| ClassifyFrame                (* [analyzeFrame(frame)]: one classifier call *)
| SetState (s : HookState)     (* [setState(...)] *)
| SetTimeout (ms : Z).         (* [setTimeout(captureWindow, ms)] *)

(** What one run of [captureWindow] meets.  [cancelled] is set by the
    cleanup of the effect and never cleared, so a [break] out of a loop is
    followed by the [return] after that loop. *)
Record WindowEnv : Type := mkWindowEnv {
  cancelled_at_entry : bool;
  gate_reply : PepperState.status_reply;
  captured : nat;                    (* frames phase 1 captured *)
  cancelled_after_capture : bool;
  analyses : list (option Frame);    (* [analyzeFrame] of each valid frame;
                                        [None] is its [null] *)
  cancelled_after_analysis : bool;
  cancelled_at_schedule : bool
}.

(** [results.filter(r => r !== null)], over all batches in frame order. *)
Fixpoint usable (results : list (option Frame)) : list Frame :=
  match results with
  | [] => []
  | Some r :: rest => r :: usable rest
  | None :: rest => usable rest
  end.

Definition captureWindow (room : string) (env : WindowEnv) (s : HookState)
  : list effect * HookState :=
  if cancelled_at_entry env then ([], s)
  else if negb (PepperState.isPepperAvailable room (gate_reply env)) then
    ([GateQuery room; SetTimeout 2000], s)
  else
    let phase1 := GateQuery room :: repeat CaptureFrame (captured env) in
    if cancelled_after_capture env then (phase1, s)
    else
      let phase3 := (phase1 ++ map (fun _ => ClassifyFrame) (analyses env))%list in
      if cancelled_after_analysis env then (phase3, s)
      else
        let allResults := usable (analyses env) in
        let aggregated := aggregateFrames allResults in
        let s' :=
          mkHookState (a_label aggregated) (confidence aggregated) true None
            (Some aggregated) (frameCount aggregated)
            (consensusRatio aggregated) (details aggregated) in
        ((phase3 ++ [SetState s'] ++
          (if cancelled_at_schedule env then [] else [SetTimeout 2000]))%list,
         s').

(** *** What the specification calls votes and mean *)

(** The label a frame votes for. *)
Definition vote (f : Frame) : string := str_or (label f) "neutral".

(** The frames that voted for [l]. *)
Definition voters (l : string) (frames : list Frame) : list Frame :=
  filter (fun f => String.eqb (vote f) l) frames.

Definition votes_for (l : string) (frames : list Frame) : nat :=
  List.length (voters l frames).

(** Arithmetic mean of a list of scores. *)
Definition mean (l : list Q) : Q :=
  fold_right Qplus 0 l / Qnat (List.length l).

End FaceYolo.

(** ** src/unnamed/part_005 (src/hooks/useSpeechEmotion.jsx) *)

Module SpeechEmotion.
Import Js.
Local Open Scope string_scope.
Local Open Scope Q_scope.

Definition INTERVAL_MS : Q := 8000.
Definition PRECHECK_MS : Z := 1000.
Definition SILENCE_RMS_MIN : Q := 2 # 1000.
Definition SILENCE_RMS_MAX : Q := 15 # 1000.
Definition BURST_DURATION_MS : Z := 4000.
Definition BACKOFF_BASE : Z := 2000.
Definition BACKOFF_MAX : Z := 25000.
Definition MAX_CONSEC_FAILS : nat := 3.
Definition QUIET_HITS_FOR_SLOW : nat := 3.
Definition QUIET_HITS_FOR_ADAPTIVE : nat := 5.

(** *** The adaptive voice-activity detector *)

Record VadState : Type := mkVadState {
  recentRMS : list Q;
  consecutiveQuiet : nat;
  consecutiveLoud : nat;
  ambientNoiseLevel : Q
}.

(** The two module-level bindings every cycle shares:
    [let SILENCE_RMS_ADAPTIVE] and [const vadState]. *)
Record Globals : Type := mkGlobals {
  SILENCE_RMS_ADAPTIVE : Q;
  vadState : VadState
}.

Definition initial_globals : Globals :=
  mkGlobals (5 # 1000) (mkVadState [] 0 0 (3 # 1000)).

(** What the analyser loop of [precheckLoudness] resolves with. *)
Record Measurement : Type := mkMeasurement {
  rmsAvg : Q;
  rmsMax : Q;
  rmsMin : Q
}.

Definition rmsDynamic (m : Measurement) : Q := rmsMax m - rmsMin m.

Record VadResult : Type := mkVadResult {
  measured : Measurement;
  hasVoice : bool;
  vad_confidence : Q;
  threshold : Q;
  ambientNoise : Q
}.

(** [[...a].sort((a, b) => a - b)]: ascending, stable. *)
Fixpoint insert_sorted (x : Q) (l : list Q) : list Q :=
  match l with
  | [] => [x]
  | y :: rest => if Qle_bool x y then x :: y :: rest else y :: insert_sorted x rest
  end.

Fixpoint sort_ascending (l : list Q) : list Q :=
  match l with
  | [] => []
  | x :: rest => insert_sorted x (sort_ascending rest)
  end.

(** [precheckLoudness] from the point where the analyser has resolved
    (the stream is present: the loop calls it after its audio-track check). *)
Definition precheckLoudness (g : Globals) (result : Measurement)
  : VadResult * Globals :=
  let v := vadState g in
  let pushed := (recentRMS v ++ [rmsAvg result])%list in
  let recent := if (10 <? List.length pushed)%nat then tl pushed else pushed in
  let sortedRMS := sort_ascending recent in
  let ambient := Js.sum (firstn 3 sortedRMS) / 3 in
  let threshold := Qmax SILENCE_RMS_MIN (ambient * (15 # 10)) in
  let adaptive := Qmin SILENCE_RMS_MAX threshold in
  let hasVoice :=
    Qle_bool adaptive (rmsAvg result) && Qltb (2 # 1000) (rmsDynamic result) in
  let confidence := if hasVoice then Qmin 1 (rmsAvg result / adaptive) else 0 in
  (mkVadResult result hasVoice confidence adaptive ambient,
   mkGlobals adaptive
     (mkVadState recent (consecutiveQuiet v) (consecutiveLoud v) ambient)).

(** The globals after a sequence of probes. *)
Definition probe_all (results : list Measurement) (g : Globals) : Globals :=
  fold_left (fun g result => snd (precheckLoudness g result)) results g.

(** The last [n] elements of a list. *)
Definition last_n {A : Type} (n : nat) (l : list A) : list A :=
  skipn (List.length l - n) l.

(** *** The scheduler loop *)

(** The refs of one hook instance, and the module globals. *)
Record Sched : Type := mkSched {
  runningRef : bool;
  failsRef : nat;
  backoffRef : Z;
  quietHitsRef : nat;
  enabledRef : bool;
  cleanupRef : bool;
  intervalMsRef : Q;
  onUpdateRef : bool;          (* a callback is registered *)
  globals : Globals
}.

Definition initial_sched (intervalMs : Q) (onUpdate : bool) : Sched :=
  mkSched false 0 BACKOFF_BASE 0 true false intervalMs onUpdate initial_globals.

Definition set_running (b : bool) (s : Sched) : Sched :=
  mkSched b (failsRef s) (backoffRef s) (quietHitsRef s) (enabledRef s)
    (cleanupRef s) (intervalMsRef s) (onUpdateRef s) (globals s).

Definition set_quietHits (n : nat) (s : Sched) : Sched :=
  mkSched (runningRef s) (failsRef s) (backoffRef s) n (enabledRef s)
    (cleanupRef s) (intervalMsRef s) (onUpdateRef s) (globals s).

Definition set_globals (g : Globals) (s : Sched) : Sched :=
  mkSched (runningRef s) (failsRef s) (backoffRef s) (quietHitsRef s)
    (enabledRef s) (cleanupRef s) (intervalMsRef s) (onUpdateRef s) g.

Definition resetBackoff (s : Sched) : Sched :=
  mkSched (runningRef s) 0 BACKOFF_BASE (quietHitsRef s) (enabledRef s)
    (cleanupRef s) (intervalMsRef s) (onUpdateRef s) (globals s).

Definition bumpBackoff (s : Sched) : Z * Sched :=
  let backoff := Z.min BACKOFF_MAX (backoffRef s * 2) in
  (backoff,
   mkSched (runningRef s) (failsRef s + 1) backoff (quietHitsRef s)
     (enabledRef s) (cleanupRef s) (intervalMsRef s) (onUpdateRef s)
     (globals s)).

(** The body the classifier answers with, once parsed. *)
Record Json : Type := mkJson {
  stringified : string;        (* [JSON.stringify(json)] *)
  json_label : string;
  json_score : Q
}.

(** What [POST /emotion/from-speech] answers: the content type decides
    whether [json] or [text] is read; either stays [null] when reading
    throws. *)
Inductive api_reply : Type :=
| ApiFetchRejects
| ApiResponse (status : Z) (json : option Json) (text : option string).

Definition responseOrErrorIsInsufficient (status : Z) (bodyText : option string)
    (json : option Json) (error : option (string * string)) : bool :=
  let lc (s : option string) :=
    toLowerCase (match s with Some s => s | None => "" end) in
  if ((status =? 429) || (status =? 503))%Z then true
  else if includes (lc bodyText) "insufficient"
          || includes (lc bodyText) "out of memory" then true
  else
    let j := match json with
             | Some json => lc (Some (stringified json))
             | None => ""
             end in
    if includes j "insufficient" || includes j "out of memory" then true
    else
      match error with
      | Some (name, message) =>
          if includes (lc (Some message)) "insufficient"
             || includes (lc (Some message)) "resources" then true
          else String.eqb name "TypeError"
      | None => false
      end.

(** What the callback receives. *)
Inductive update : Type :=
| Fallback (label : string) (score : Q) (reason model : string)
| Detected (json : Json).

Inductive effect : Type :=
| OnUpdate (u : update)        (* [onUpdateRef.current(...)] *)
| GateQuery (room : string)    (* [isPepperAvailableForAudio(room)] *)
| Precheck                     (* [precheckLoudness(stream, PRECHECK_MS)] *)
| RecordBurst                  (* [recordSpeechBurst(stream)] *)
| Classify (room : string)     (* [POST /emotion/from-speech] *)
| Schedule (ms : Q).           (* [schedule(ms)] *)

(** The branch one run of [loop] ends in. *)
Inductive outcome : Type :=
| Idle                         (* disabled, cleaning up or already running *)
| NoAudioTrack
| PepperBusy
| Silence
| Failure (reason : string)
| Success.

(** What one run of [loop] meets. *)
Record LoopEnv : Type := mkLoopEnv {
  hasAudio : bool;
  gate_reply : PepperState.status_reply;
  measurement : option Measurement;    (* [None]: the probe throws *)
  recorded : bool;                     (* [false]: the recorder rejects *)
  reply : api_reply;
  still_enabled : bool                 (* [enabledRef.current &&
                                          !cleanupRef.current] when the run
                                          reschedules *)
}.

Definition pushNeutral (s : Sched) (reason : string) : list effect :=
  if onUpdateRef s
  then [OnUpdate (Fallback "neutral" (5 # 10) reason "lstm-tess-custom")]
  else [].

Definition pushSilence (s : Sched) (reason : string) : list effect :=
  if onUpdateRef s
  then [OnUpdate (Fallback "neutral" (35 # 100) reason "lstm-tess-custom-silence")]
  else [].

Definition reschedule (env : LoopEnv) (ms : Q) : list effect :=
  if still_enabled env then [Schedule ms] else [].

(** The three failure exits: [bumpBackoff], a neutral fallback, and a
    retry after the bumped delay. *)
Definition back_off (env : LoopEnv) (reason : string) (done : list effect)
    (s : Sched) : outcome * list effect * Sched :=
  let '(delay, s1) := bumpBackoff s in
  (Failure reason,
   (done ++ pushNeutral s1 reason ++ reschedule env (inject_Z delay))%list,
   set_running false s1).

(** The silence branch of the loop, after the probe. *)
Definition on_silence (env : LoopEnv) (done : list effect) (s : Sched)
  : outcome * list effect * Sched :=
  let g := globals s in
  let v := vadState g in
  let quiet := (consecutiveQuiet v + 1)%nat in
  let quietHits := (quietHitsRef s + 1)%nat in
  let g1 :=
    if (QUIET_HITS_FOR_ADAPTIVE <=? quiet)%nat
    then mkGlobals (Qmin SILENCE_RMS_MAX (SILENCE_RMS_ADAPTIVE g * (11 # 10)))
           (mkVadState (recentRMS v) 0 0 (ambientNoiseLevel v))
    else mkGlobals (SILENCE_RMS_ADAPTIVE g)
           (mkVadState (recentRMS v) quiet 0 (ambientNoiseLevel v)) in
  let s1 := set_globals g1 (set_quietHits quietHits s) in
  let nextInterval :=
    if (QUIET_HITS_FOR_SLOW <=? quietHits)%nat
    then intervalMsRef s * (15 # 10) else intervalMsRef s in
  (Silence,
   (done ++ pushSilence s "silence" ++ reschedule env nextInterval)%list,
   resetBackoff (set_running false s1)).

(** The voice branch: record a burst, classify it. *)
Definition on_voice (room : string) (env : LoopEnv) (done : list effect)
    (s : Sched) : outcome * list effect * Sched :=
  let g := globals s in
  let v := vadState g in
  let g1 :=
    mkGlobals (SILENCE_RMS_ADAPTIVE g)
      (mkVadState (recentRMS v) 0 (consecutiveLoud v + 1) (ambientNoiseLevel v)) in
  let s1 := set_globals g1 (set_quietHits 0 s) in
  let done1 := (done ++ [RecordBurst])%list in
  if negb (recorded env) then back_off env "unexpected_error" done1 s1
  else
    let done2 := (done1 ++ [Classify room])%list in
    match reply env with
    | ApiFetchRejects => back_off env "fetch_error" done2 s1
    | ApiResponse status json text =>
        if responseOrErrorIsInsufficient status text json None
        then back_off env "insufficient_resources" done2 s1
        else
          let s2 := resetBackoff s1 in
          let notify :=
            match json with
            | Some j =>
                if response_ok status && onUpdateRef s2
                then [OnUpdate (Detected j)] else []
            | None => []
            end in
          (Success,
           (done2 ++ notify ++ reschedule env (intervalMsRef s2))%list,
           set_running false s2)
    end.

(** The [finally] block. *)
Definition finally (s : Sched) : Sched :=
  if (MAX_CONSEC_FAILS <=? failsRef s)%nat then resetBackoff s else s.

Definition loop (room : string) (env : LoopEnv) (s : Sched)
  : outcome * list effect * Sched :=
  if negb (enabledRef s) || cleanupRef s || runningRef s then (Idle, [], s)
  else
    let s0 := set_running true s in
    let '(o, effects, s1) :=
      if negb (hasAudio env) then
        (NoAudioTrack,
         (pushNeutral s0 "no_audio_track" ++ reschedule env (intervalMsRef s0))%list,
         resetBackoff (set_running false s0))
      else if negb (PepperState.isPepperAvailableForAudio room (gate_reply env)) then
        (PepperBusy,
         (GateQuery room :: pushNeutral s0 "pepper_busy" ++
          reschedule env (intervalMsRef s0 * (15 # 10)))%list,
         resetBackoff (set_running false s0))
      else
        match measurement env with
        | None => back_off env "unexpected_error" [GateQuery room; Precheck] s0
        | Some result =>
            let '(vadResult, g) := precheckLoudness (globals s0) result in
            let s1 := set_globals g s0 in
            if negb (hasVoice vadResult)
            then on_silence env [GateQuery room; Precheck] s1
            else on_voice room env [GateQuery room; Precheck] s1
        end in
    (o, effects, finally s1).

(** A run of the scheduler: the loop fired once per environment. *)
Fixpoint run (room : string) (envs : list LoopEnv) (s : Sched)
  : list (outcome * list effect) * Sched :=
  match envs with
  | [] => ([], s)
  | env :: rest =>
      let '(o, effects, s1) := loop room env s in
      let '(trace, s2) := run room rest s1 in
      ((o, effects) :: trace, s2)
  end.

(** The delays a list of effects scheduled, in order. *)
Definition scheduled (effects : list effect) : list Q :=
  flat_map (fun e => match e with Schedule ms => [ms] | _ => [] end) effects.

(** The delays the runs of a trace scheduled, in order. *)
Definition delays (trace : list (outcome * list effect)) : list Q :=
  flat_map (fun step => scheduled (snd step)) trace.

(** The updates a list of effects handed to the callback, in order. *)
Definition updates (effects : list effect) : list update :=
  flat_map (fun e => match e with OnUpdate u => [u] | _ => [] end) effects.

(** The states a scheduler started by the hook can be in. *)
Inductive reachable (room : string) : Sched -> Prop :=
| reachable_initial (intervalMs : Q) (onUpdate : bool) :
    reachable room (initial_sched intervalMs onUpdate)
| reachable_loop (env : LoopEnv) (s : Sched) :
    reachable room s -> reachable room (snd (loop room env s)).




(** The cycle starts, detects voice, records a burst and gets a response
    that is not a resource-exhaustion signal, whatever its status. *)
Definition answered (room : string) (env : LoopEnv) (s : Sched) : Prop :=
  enabledRef s = true /\ cleanupRef s = false /\ runningRef s = false /\
  hasAudio env = true /\
  PepperState.isPepperAvailableForAudio room (gate_reply env) = true /\
  exists m status json text,
    measurement env = Some m /\
    hasVoice (fst (precheckLoudness (globals s) m)) = true /\
    recorded env = true /\
    reply env = ApiResponse status json text /\
    responseOrErrorIsInsufficient status text json None = false.

End SpeechEmotion.

(** ** src/pepper_connect/src/hooks/useEmotionFusion.jsx *)

Module EmotionFusion.
Import Js.
Local Open Scope string_scope.
Local Open Scope Q_scope.

(** The body of [GET /fusion/buffer-stats]. *)
Record Stats : Type := mkStats {
  face_count : nat;
  audio_count : nat;
  has_both : bool;
  face_latest_age_ms : option Q;     (* [None]: missing or [null] *)
  audio_latest_age_ms : option Q
}.

Inductive stats_reply : Type :=
| StatsRejects (message : string)        (* [fetch] throws *)
| StatsNotOk (status : Z)                (* [statsResponse.ok] is false *)
| StatsBodyRejects (message : string)    (* [statsResponse.json()] throws *)
| StatsBody (stats : Stats).

(** The body of a successful [POST /fusion/auto-fuse]. *)
Record FusionData : Type := mkFusionData {
  emotion : string;
  confidence : Q;
  strategy : string;
  weight_face : Q;
  weight_audio : Q
}.

Inductive fuse_reply : Type :=
| FuseRejects (message : string)         (* [fetch] throws *)
| FuseNotOk (status : Z) (detail : option string)
                                         (* [!response.ok]; [errorData?.detail] *)
| FuseBodyRejects (message : string)     (* [response.json()] throws *)
| FuseBody (data : FusionData).

(** The refs of the hook. *)
Record Refs : Type := mkRefs {
  lastFusion_label : option string;
  lastFusion_ts : Q;
  isProcessingRef : bool;
  lastDetection_face : Z;
  lastDetection_audio : Z;
  lastCheck : Z
}.

Definition initial_refs : Refs := mkRefs None 0 false 0 0 0.

(** The state of the hook: [fusedEmotion] and [error]. *)
Record Hook : Type := mkHook {
  fusedEmotion : option FusionData;
  error : option string
}.

Definition initial_hook : Hook := mkHook None None.

Inductive effect : Type :=
| GateQuery (room : string)              (* [isPepperAvailable(room)] *)
| BufferStatsRequest (room : string)     (* [GET /fusion/buffer-stats] *)
| FuseRequest (room : string)            (* [POST /fusion/auto-fuse] *)
| OnUpdate (data : FusionData)           (* [onUpdateRef.current(data)] *)
| ConsoleError (message : string).       (* [console.error] *)

(** What one call of [performFusion] meets. *)
Record Env : Type := mkEnv {
  gate_reply : PepperState.status_reply;
  now : Z;                               (* [Date.now()] *)
  stats : stats_reply;
  fuse : fuse_reply;
  perfNow : Q                            (* [performance.now()] *)
}.

Definition set_processing (b : bool) (r : Refs) : Refs :=
  mkRefs (lastFusion_label r) (lastFusion_ts r) b (lastDetection_face r)
    (lastDetection_audio r) (lastCheck r).

(** [x || Infinity] followed by [> 10000]: a missing age and an age of
    [0] read as [Infinity]. *)
Definition over_10000 (age : option Q) : bool :=
  match age with
  | Some a => if Qeq_bool a 0 then true else Qltb 10000 a
  | None => true
  end.

(** The [catch] block: an error whose message is not empty and does not
    mention 'No hay deteccion' is logged and stored. *)
Definition catch (message : string) (done : list effect) (r : Refs) (h : Hook)
  : list effect * Refs * Hook :=
  match message with
  | EmptyString => (done, set_processing false r, h)
  | _ =>
      if includes message "No hay detección"
      then (done, set_processing false r, h)
      else ((done ++ [ConsoleError message])%list, set_processing false r,
            mkHook (fusedEmotion h) (Some message))
  end.

(** [`HTTP error ${response.status}`]. *)
Definition http_error (status : Z) : string :=
  "HTTP error " ++ DecimalString.NilZero.string_of_int (Z.to_int status).

(** Step 2 of [performFusion]: the fuse request and what follows it. *)
Definition attempt_fuse (room : string) (onUpdate : bool) (env : Env)
    (done : list effect) (r : Refs) (h : Hook) : list effect * Refs * Hook :=
  let done1 := (done ++ [FuseRequest room])%list in
  match fuse env with
  | FuseRejects message => catch message done1 r h
  | FuseNotOk status detail =>
      if (status =? 400)%Z then (done1, set_processing false r, h)
      else
        catch (match detail with
               | Some d => str_or d (http_error status)
               | None => http_error status
               end) done1 r h
  | FuseBodyRejects message => catch message done1 r h
  | FuseBody data =>
      let isSameAsLast :=
        match lastFusion_label r with
        | Some l => String.eqb l (emotion data)
        | None => false
        end in
      let timeSinceLastFusion := perfNow env - lastFusion_ts r in
      if negb isSameAsLast || Qltb 5000 timeSinceLastFusion
      then
        ((done1 ++ (if onUpdate then [OnUpdate data] else []))%list,
         mkRefs (Some (emotion data)) (perfNow env) false
           (lastDetection_face r) (lastDetection_audio r) (lastCheck r),
         mkHook (Some data) None)
      else (done1, set_processing false r, mkHook (fusedEmotion h) None)
  end.

Definition performFusion (room : string) (enabled onUpdate : bool) (env : Env)
    (r : Refs) (h : Hook) : list effect * Refs * Hook :=
  if String.eqb room "" || negb enabled then ([], r, h)
  else if isProcessingRef r then ([], r, h)
  else if negb (PepperState.isPepperAvailable room (gate_reply env)) then
    ([GateQuery room], set_processing false r, h)
  else
    let timeSinceLastCheck := (now env - lastCheck r)%Z in
    if (timeSinceLastCheck <? 2000)%Z then
      ([GateQuery room], set_processing false r, h)
    else
      let done := [GateQuery room; BufferStatsRequest room] in
      match stats env with
      | StatsRejects message => catch message done r h
      | StatsBodyRejects message => catch message done r h
      | StatsNotOk _ => attempt_fuse room onUpdate env done r h
      | StatsBody st =>
          let r1 :=
            mkRefs (lastFusion_label r) (lastFusion_ts r) (isProcessingRef r)
              (if (0 <? face_count st)%nat then now env else lastDetection_face r)
              (if (0 <? audio_count st)%nat then now env else lastDetection_audio r)
              (now env) in
          if negb (has_both st) then (done, set_processing false r1, h)
          else if over_10000 (face_latest_age_ms st)
                  || over_10000 (audio_latest_age_ms st)
          then (done, set_processing false r1, h)
          else attempt_fuse room onUpdate env done r1 h
      end.

(** The poll ticks of [setInterval(performFusion, intervalMs)], one
    environment per tick. *)
Fixpoint ticks (room : string) (enabled onUpdate : bool) (envs : list Env)
    (r : Refs) (h : Hook) : list (list effect) :=
  match envs with
  | [] => []
  | env :: rest =>
      let '(effects, r1, h1) := performFusion room enabled onUpdate env r h in
      effects :: ticks room enabled onUpdate rest r1 h1
  end.

(** The tick sent a buffer-stats request. *)
Definition checks_buffer (room : string) (effects : list effect) : bool :=
  existsb (fun e => match e with
                    | BufferStatsRequest r => String.eqb r room
                    | _ => false
                    end) effects.

(** The tick sent a fuse request. *)
Definition requests_fuse (room : string) (effects : list effect) : bool :=
  existsb (fun e => match e with
                    | FuseRequest r => String.eqb r room
                    | _ => false
                    end) effects.

(** The tick logged an error. *)
Definition logs_error (effects : list effect) : bool :=
  existsb (fun e => match e with ConsoleError _ => true | _ => false end) effects.

(** The stats reply is a body that reports both modalities, each with a
    latest detection not older than 10 s. *)
Definition reports_both_fresh (reply : stats_reply) : Prop :=
  exists st,
    reply = StatsBody st /\ has_both st = true /\
    over_10000 (face_latest_age_ms st) = false /\
    over_10000 (audio_latest_age_ms st) = false.

(** The stats reply is a body that reports a missing modality or a latest
    detection that is too old. *)
Definition reports_missing_or_stale (reply : stats_reply) : Prop :=
  exists st,
    reply = StatsBody st /\
    (has_both st = false \/ over_10000 (face_latest_age_ms st) = true \/
     over_10000 (audio_latest_age_ms st) = true).

(** Two ticks in a row are debounced: when the first checked the buffer
    and the second comes less than 2000 ms later, the second sends neither
    a buffer-stats nor a fuse request. *)
Definition debounced (room : string) (enabled onUpdate : bool) (env1 env2 : Env)
    (r : Refs) (h : Hook) : Prop :=
  let '(e1, r1, h1) := performFusion room enabled onUpdate env1 r h in
  let '(e2, _, _) := performFusion room enabled onUpdate env2 r1 h1 in
  checks_buffer room e1 = true ->
  (now env2 - now env1 < 2000)%Z ->
  checks_buffer room e2 = false /\ requests_fuse room e2 = false.

End EmotionFusion.

(** ** src/pepper_connect/src/lib/pepperEmotionClient.jsx *)

Module PepperEmotionClient.
Import Js.
Local Open Scope string_scope.

Definition FILE_BY_EMOTION : obj string :=
  [ ("neutral", "neutral.txt"); ("anger", "anger.txt"); ("angry", "anger.txt");
    ("sad", "sad.txt"); ("sadness", "sad.txt"); ("surprise", "surprise.txt");
    ("surprised", "surprise.txt"); ("disgust", "disgust.txt");
    ("disgusted", "disgust.txt"); ("fear", "fear.txt"); ("afraid", "fear.txt");
    ("scared", "fear.txt"); ("happy", "happy.txt"); ("joy", "happy.txt") ].

(** White space [trim] removes, within ASCII: tab, line feed, vertical
    tab, form feed, carriage return and space. *)
Definition is_space (c : ascii) : bool :=
  let n := nat_of_ascii c in
  ((9 <=? n) && (n <=? 13) || (n =? 32))%nat.

Fixpoint trimStart (s : string) : string :=
  match s with
  | EmptyString => EmptyString
  | String c rest => if is_space c then trimStart rest else s
  end.

Fixpoint trimEnd (s : string) : string :=
  match s with
  | EmptyString => EmptyString
  | String c rest =>
      match trimEnd rest with
      | EmptyString => if is_space c then EmptyString else String c EmptyString
      | kept => String c kept
      end
  end.

Definition trim (s : string) : string := trimEnd (trimStart s).

(** [[...].includes(s)]. *)
Definition among (l : list string) (s : string) : bool :=
  existsb (String.eqb s) l.

(** [normalizeEmotion(label)]; [None] is [null] or [undefined]. *)
Definition normalizeEmotion (label : option string) : string :=
  match label with
  | None => "neutral"
  | Some EmptyString => "neutral"
  | Some label =>
      let s := trim (toLowerCase label) in
      if among ["joy"; "happy"] s then "happy"
      else if among ["anger"; "angry"] s then "anger"
      else if among ["sad"; "sadness"] s then "sad"
      else if among ["surprise"; "surprised"] s then "surprise"
      else if among ["disgust"; "disgusted"] s then "disgust"
      else if among ["fear"; "scared"; "afraid"] s then "fear"
      else if among ["neutral"; "none"; "..."] s then "neutral"
      else "neutral"
  end.

(** The closed enumeration of the data model. *)
Definition EmotionLabel : list string :=
  ["happy"; "sad"; "angry"; "surprise"; "fear"; "disgust"; "neutral"].

(** The labels [normalizeEmotion] returns. *)
Definition normalized_labels : list string :=
  ["happy"; "sad"; "anger"; "surprise"; "fear"; "disgust"; "neutral"].

End PepperEmotionClient.

(** ** The 2oo2 fusion engine *)

Module FusionVoting.
Local Open Scope string_scope.
Local Open Scope Q_scope.

Record Detection : Type := mkDetection { label : string; confidence : Q }.

Inductive Strategy : Type :=
| ConsensusWeighted
| WeightedFusion.

Record FusionResult : Type := mkFusionResult {
  emotion : string;
  fused_confidence : Q;
  strategy : Strategy;
  weight_face : Q;
  weight_speech : Q
}.

Definition base_face_weight : Q := 45 # 100.
Definition base_audio_weight : Q := 55 # 100.

Definition clamp (x lo hi : Q) : Q := Qmax lo (Qmin hi x).

(** src/ARCHITECTURE.md, "Pesos Dinamicos": the weights as the
    architecture document writes them down.  Only the branch where the
    face is the more confident modality is written there. *)
Definition pesos_dinamicos (face_score audio_score : Q) : Q * Q :=
  let '(face_weight, audio_weight) :=
    if Js.Qltb audio_score face_score
    then (base_face_weight + (face_score - audio_score) * (5 # 10),
          base_audio_weight - (face_score - audio_score) * (5 # 10))
    else (base_face_weight, base_audio_weight) in
  let face_weight := clamp face_weight (30 # 100) (70 # 100) in
  let audio_weight := clamp audio_weight (30 # 100) (70 # 100) in
  let total := face_weight + audio_weight in
  (face_weight / total, audio_weight / total).

(** Modelled from the spec: the fusion engine itself (fusion_voting.py of
    the backend) is not among the sources; these are the dynamic weights
    of step 4 of the specification's 2oo2 algorithm.  Start from the base
    weights, shift half the confidence gap toward the more confident
    modality, clamp each weight to [[0.30, 0.70]], renormalize. *)
Definition dynamic_weights (face speech : Detection) : Q * Q :=
  let gap := confidence face - confidence speech in
  let '(wf, ws) :=
    if Js.Qltb (confidence speech) (confidence face)
    then (base_face_weight + (5 # 10) * gap, base_audio_weight - (5 # 10) * gap)
    else if Js.Qltb (confidence face) (confidence speech)
    then (base_face_weight - (5 # 10) * (- gap),
          base_audio_weight + (5 # 10) * (- gap))
    else (base_face_weight, base_audio_weight) in
  let wf := clamp wf (30 # 100) (70 # 100) in
  let ws := clamp ws (30 # 100) (70 # 100) in
  (wf / (wf + ws), ws / (wf + ws)).

(** Modelled from the spec: steps 3 and 4 of the 2oo2 algorithm for two
    present detections (the engine is not among the sources).  Equal
    labels: weights 50/50, mean confidence times 1.10, clamped to
    [[0,1]].  Different labels: dynamic weights, the label of the higher
    weighted confidence (the face on a tie), that weighted confidence
    times 0.90, clamped to [[0,1]]. *)
Definition fuse (face speech : Detection) : FusionResult :=
  if String.eqb (label face) (label speech) then
    mkFusionResult (label face)
      (clamp ((confidence face + confidence speech) / 2 * (110 # 100)) 0 1)
      ConsensusWeighted (1 # 2) (1 # 2)
  else
    let '(wf, ws) := dynamic_weights face speech in
    let weighted_face := wf * confidence face in
    let weighted_speech := ws * confidence speech in
    if Qle_bool weighted_speech weighted_face
    then mkFusionResult (label face) (clamp (weighted_face * (90 # 100)) 0 1)
           WeightedFusion wf ws
    else mkFusionResult (label speech) (clamp (weighted_speech * (90 # 100)) 0 1)
           WeightedFusion wf ws.

End FusionVoting.

(* ================================================================== *)
(** * Part II: properties                                              *)
(* ================================================================== *)

Section JsFacts.
Import Js.
Context {V : Type}.

Lemma obj_get_set_same (o : obj V) k v : obj_get (obj_set o k v) k = Some v.
Proof.
  induction o as [|[k' v'] o IH]; simpl.
  - now rewrite String.eqb_refl.
  - destruct (String.eqb k k') eqn:E; simpl; rewrite E; auto.
Qed.

Lemma obj_get_set_other (o : obj V) k k' v :
  k' <> k -> obj_get (obj_set o k v) k' = obj_get o k'.
Proof.
  intros Hne. induction o as [|[k0 v0] o IH]; simpl.
  - destruct (String.eqb k' k) eqn:E; auto.
    apply String.eqb_eq in E. contradiction.
  - destruct (String.eqb k k0) eqn:E; simpl.
    + apply String.eqb_eq in E. subst k0.
      apply String.eqb_neq in Hne. now rewrite Hne.
    + now rewrite IH.
Qed.

Lemma obj_set_keys (o : obj V) k v :
  map fst (obj_set o k v) =
  if existsb (String.eqb k) (map fst o) then map fst o else map fst o ++ [k].
Proof.
  induction o as [|[k0 v0] o IH]; simpl; auto.
  destruct (String.eqb k k0) eqn:E; simpl; auto.
  rewrite IH. now destruct (existsb (String.eqb k) (map fst o)).
Qed.

Lemma obj_set_NoDup (o : obj V) k v :
  NoDup (map fst o) -> NoDup (map fst (obj_set o k v)).
Proof.
  intros Hnd. rewrite obj_set_keys.
  destruct (existsb (String.eqb k) (map fst o)) eqn:E; auto.
  apply NoDup_app; auto.
  - constructor; [intros [] | constructor].
  - intros x Hin [Hx|[]]. subst x.
    assert (existsb (String.eqb k) (map fst o) = true); [|congruence].
    apply existsb_exists. exists k. split; auto. apply String.eqb_refl.
Qed.

Lemma obj_get_In (o : obj V) k v : obj_get o k = Some v -> In (k, v) o.
Proof.
  induction o as [|[k0 v0] o IH]; simpl; [discriminate|].
  destruct (String.eqb k k0) eqn:E.
  - apply String.eqb_eq in E. intros [= ->]. subst. now left.
  - intros H. right. auto.
Qed.

Lemma obj_In_get (o : obj V) k v :
  NoDup (map fst o) -> In (k, v) o -> obj_get o k = Some v.
Proof.
  induction o as [|[k0 v0] o IH]; simpl; [intros _ []|].
  intros Hnd [Heq|Hin].
  - injection Heq as -> ->. now rewrite String.eqb_refl.
  - inversion Hnd as [|? ? Hnotin Hnd']; subst.
    destruct (String.eqb k k0) eqn:E.
    + apply String.eqb_eq in E. subst k0. exfalso. apply Hnotin.
      change k with (fst (k, v)). now apply in_map.
    + auto.
Qed.

End JsFacts.

(** ** Majority vote of one capture window *)

Section AggregateFacts.
Import Js FaceYolo.
Local Open Scope Q_scope.

(** What the two dictionaries hold after [frames.forEach]. *)
Definition tallied (frames : list Frame) (acc : obj nat * obj (list Q)) : Prop :=
  NoDup (map fst (fst acc)) /\
  forall l,
    match votes_for l frames with
    | O => obj_get (fst acc) l = None /\ obj_get (snd acc) l = None
    | S n =>
        obj_get (fst acc) l = Some (S n) /\
        obj_get (snd acc) l =
          Some (map (fun f => num_or (score f) 0) (voters l frames))
    end.

Lemma voters_snoc l frames f :
  voters l (frames ++ [f]) =
  if String.eqb (vote f) l then voters l frames ++ [f] else voters l frames.
Proof.
  unfold voters. rewrite filter_app. simpl.
  destruct (String.eqb (vote f) l); auto using app_nil_r.
Qed.

Lemma count_frame_tallied frames acc f :
  tallied frames acc -> tallied (frames ++ [f]) (count_frame acc f).
Proof.
  destruct acc as [vs ss]. intros [Hnd Hall]. unfold count_frame.
  fold (vote f). split.
  - simpl. now apply obj_set_NoDup.
  - intros l. specialize (Hall l) as Hl. specialize (Hall (vote f)) as Hv.
    unfold votes_for in *. rewrite voters_snoc. simpl fst in *. simpl snd in *.
    destruct (String.eqb (vote f) l) eqn:E.
    + apply String.eqb_eq in E. subst l. rewrite length_app, Nat.add_comm. simpl.
      destruct (voters (vote f) frames) as [|g gs] eqn:Evs; simpl in *;
        destruct Hv as [Hv1 Hv2]; rewrite Hv1, Hv2; simpl;
        rewrite !obj_get_set_same.
      * split; reflexivity.
      * rewrite map_app, Nat.add_comm. split; reflexivity.
    + apply String.eqb_neq in E.
      assert (Hne : l <> vote f) by congruence.
      destruct (obj_get ss (vote f));
        rewrite !obj_get_set_other by exact Hne; exact Hl.
Qed.

Lemma forEach_tallied frames :
  tallied frames (fold_left count_frame frames ([], [])).
Proof.
  induction frames as [|f frames IH] using rev_ind.
  - split; [constructor | intros l; simpl; auto].
  - rewrite fold_left_app. simpl. now apply count_frame_tallied.
Qed.

(** The scan over [Object.entries(votes)] keeps a maximal entry. *)
Lemma pick_winner_max entries w0 m0 :
  let r := fold_left pick_winner entries (w0, m0) in
  (m0 <= snd r)%nat /\
  (forall e c, In (e, c) entries -> (c <= snd r)%nat) /\
  (r = (w0, m0) \/ In r entries).
Proof.
  revert w0 m0. induction entries as [|[e c] entries IH]; intros w0 m0; simpl.
  - repeat split; auto. intros ? ? [].
  - destruct (Nat.ltb_spec m0 c) as [Hlt|Hge].
    + destruct (IH e c) as (H1 & H2 & H3). repeat split.
      * lia.
      * intros e' c' [[= <- <-]|Hin]; eauto.
      * destruct H3 as [->|Hin]; auto.
    + destruct (IH w0 m0) as (H1 & H2 & H3). repeat split; auto.
      * intros e' c' [[= <- <-]|Hin]; eauto. lia.
      * destruct H3 as [->|Hin]; auto.
Qed.

Lemma fold_left_Qplus l a : fold_left Qplus l a == a + fold_right Qplus 0 l.
Proof.
  revert a. induction l as [|x l IH]; intros a; simpl.
  - lra.
  - rewrite IH. lra.
Qed.

Lemma sum_fold_right l : Js.sum l == fold_right Qplus 0 l.
Proof. unfold Js.sum. rewrite fold_left_Qplus. lra. Qed.

Lemma sum_num_or (fs : list Frame) :
  fold_right Qplus 0 (map (fun f => num_or (score f) 0) fs) ==
  fold_right Qplus 0 (map score fs).
Proof.
  induction fs as [|f fs IH]; simpl; [reflexivity|].
  rewrite IH. unfold num_or. destruct (Qeq_bool (score f) 0) eqn:E; [|reflexivity].
  apply Qeq_bool_eq in E. rewrite E. reflexivity.
Qed.

Lemma sum_bounds (l : list Q) :
  (forall x, In x l -> 0 <= x <= 1) ->
  0 <= fold_right Qplus 0 l <= Qnat (List.length l).
Proof.
  unfold Qnat. induction l as [|x l IH]; intros H; simpl fold_right.
  - split; apply Qle_refl.
  - assert (Hx : 0 <= x <= 1) by (apply H; now left).
    assert (Hl : 0 <= fold_right Qplus 0 l <= inject_Z (Z.of_nat (List.length l)))
      by (apply IH; intros; apply H; now right).
    simpl List.length. rewrite Nat2Z.inj_succ, <- Z.add_1_r, inject_Z_plus.
    change (inject_Z 1) with 1. lra.
Qed.

Lemma Qnat_pos n : (0 < n)%nat -> 0 < Qnat n.
Proof.
  intros H. unfold Qnat. change 0 with (inject_Z 0). rewrite <- Zlt_Qlt. lia.
Qed.

Lemma Qnat_le n m : (n <= m)%nat -> Qnat n <= Qnat m.
Proof. intros H. unfold Qnat. rewrite <- Zle_Qle. lia. Qed.

Lemma mean_unit_interval (l : list Q) :
  l <> [] -> (forall x, In x l -> 0 <= x <= 1) -> 0 <= mean l <= 1.
Proof.
  intros Hne H. unfold mean.
  assert (Hpos : 0 < Qnat (List.length l)).
  { apply Qnat_pos. destruct l; [contradiction | simpl; lia]. }
  destruct (sum_bounds l H) as [H0 H1]. split.
  - apply Qle_shift_div_l; [exact Hpos | lra].
  - apply Qle_shift_div_r; [exact Hpos | lra].
Qed.

Lemma votes_for_le_length l frames : (votes_for l frames <= List.length frames)%nat.
Proof. unfold votes_for, voters. apply filter_length_le. Qed.

End AggregateFacts.

Section AggregateClaim.
Import Js FaceYolo.
Local Open Scope Q_scope.

Lemma winner_spec frames vs ss w m :
  frames <> [] ->
  fold_left count_frame frames ([], []) = (vs, ss) ->
  fold_left pick_winner vs ("neutral"%string, O) = (w, m) ->
  m = votes_for w frames /\ (0 < m)%nat /\
  (forall l, (votes_for l frames <= m)%nat) /\
  obj_get ss w = Some (map (fun f => num_or (score f) 0) (voters w frames)).
Proof.
  intros Hne Htally Hwin.
  destruct (forEach_tallied frames) as [Hnd Hall]. rewrite Htally in Hnd, Hall.
  simpl fst in *. simpl snd in *.
  destruct (pick_winner_max vs "neutral"%string O) as (_ & Hmax & Hin).
  rewrite Hwin in Hmax, Hin. simpl snd in Hmax.
  assert (Hle : forall l, (votes_for l frames <= m)%nat).
  { intros l. specialize (Hall l). destruct (votes_for l frames) as [|n]; [lia|].
    destruct Hall as [Hget _]. apply obj_get_In in Hget. eauto. }
  assert (Hpos : (0 < m)%nat).
  { destruct frames as [|f frames]; [contradiction|].
    specialize (Hle (vote f)). unfold votes_for, voters in Hle. simpl in Hle.
    rewrite String.eqb_refl in Hle. simpl in Hle. lia. }
  destruct Hin as [Hinit|Hin]; [injection Hinit as _ ->; lia|].
  apply obj_In_get in Hin; [|exact Hnd].
  specialize (Hall w). destruct (votes_for w frames) as [|n].
  - destruct Hall as [Hnone _]. congruence.
  - destruct Hall as [Hget Hsc]. rewrite Hget in Hin. injection Hin as <-. auto.
Qed.

(** C1. For a non-empty list of analysed frames, the label [aggregateFrames]
    returns received at least one vote and no label received more; the
    confidence it returns is the mean score of the frames that voted for
    that label, times [0.7 + 0.3 * votes_for_winner / total_frames]; and
    when every frame score lies in [[0,1]], so does the confidence. *)
Theorem aggregateFrames_majority_mean (frames : list Frame) :
  frames <> [] ->
  let r := aggregateFrames frames in
  let w := a_label r in
  (0 < votes_for w frames)%nat /\
  (forall l, (votes_for l frames <= votes_for w frames)%nat) /\
  confidence r ==
    mean (map score (voters w frames)) *
    ((7 # 10) + (3 # 10) * (Qnat (votes_for w frames) / Qnat (List.length frames))) /\
  ((forall f, In f frames -> 0 <= score f <= 1) -> 0 <= confidence r <= 1).
Proof.
  intros Hne r w. subst w r. unfold aggregateFrames.
  destruct frames as [|f0 fs] eqn:Hfr; [contradiction|]. rewrite <- Hfr in *.
  destruct (fold_left count_frame frames ([], [])) as [vs ss] eqn:Htally.
  destruct (fold_left pick_winner vs ("neutral"%string, O)) as [w m] eqn:Hwin.
  destruct (winner_spec frames vs ss w m Hne Htally Hwin) as (Hm & Hpos & Hle & Hsc).
  rewrite Hsc. simpl a_label. simpl confidence. rewrite <- Hm.
  assert (Hconf :
    Js.sum (map (fun f => num_or (score f) 0) (voters w frames)) /
      Qnat (List.length (map (fun f => num_or (score f) 0) (voters w frames)))
    == mean (map score (voters w frames))).
  { unfold mean. rewrite sum_fold_right, sum_num_or, !length_map. reflexivity. }
  repeat split; auto.
  - rewrite Hconf. reflexivity.
  - rewrite Hconf.
    assert (Hmean : 0 <= mean (map score (voters w frames)) <= 1).
    { apply mean_unit_interval.
      - intros Hnil. apply (f_equal (@List.length Q)) in Hnil.
        rewrite length_map in Hnil. fold (votes_for w frames) in Hnil. simpl in Hnil. lia.
      - intros x Hx. apply in_map_iff in Hx as (f & <- & Hf).
        apply filter_In in Hf as [Hf _]. auto. }
    assert (Hn : 0 < Qnat (List.length frames)).
    { apply Qnat_pos. pose proof (votes_for_le_length w frames). lia. }
    assert (Hratio : 0 <= Qnat m / Qnat (List.length frames)).
    { apply Qle_shift_div_l; [exact Hn|]. pose proof (Qnat_pos m Hpos). lra. }
    nra.
  - rewrite Hconf.
    assert (Hmean : 0 <= mean (map score (voters w frames)) <= 1).
    { apply mean_unit_interval.
      - intros Hnil. apply (f_equal (@List.length Q)) in Hnil.
        rewrite length_map in Hnil. fold (votes_for w frames) in Hnil. simpl in Hnil. lia.
      - intros x Hx. apply in_map_iff in Hx as (f & <- & Hf).
        apply filter_In in Hf as [Hf _]. auto. }
    assert (Hn : 0 < Qnat (List.length frames)).
    { apply Qnat_pos. pose proof (votes_for_le_length w frames). lia. }
    assert (Hr0 : 0 <= Qnat m / Qnat (List.length frames)).
    { apply Qle_shift_div_l; [exact Hn|]. pose proof (Qnat_pos m Hpos). lra. }
    assert (Hr1 : Qnat m / Qnat (List.length frames) <= 1).
    { apply Qle_shift_div_r; [exact Hn|].
      assert (Hml : (m <= List.length frames)%nat)
        by (rewrite Hm; apply votes_for_le_length).
      pose proof (Qnat_le _ _ Hml). lra. }
    nra.
Qed.

(** Three frames, two of them happy: the mean of 0.9 and 0.7 is 0.8, the
    consensus factor is 0.7 + 0.3 x 2/3 = 0.9. *)
Definition three_frames : list Frame :=
  [mkFrame "happy" (9 # 10); mkFrame "sad" (8 # 10); mkFrame "happy" (7 # 10)].

Example aggregateFrames_three_frames :
  a_label (aggregateFrames three_frames) = "happy"%string /\
  votes (aggregateFrames three_frames) = Some 2%nat /\
  confidence (aggregateFrames three_frames) == 72 # 100.
Proof. repeat split. Qed.

Lemma aggregateFrames_majority_mean_witness :
  (0 < votes_for (a_label (aggregateFrames three_frames)) three_frames)%nat /\
  0 <= confidence (aggregateFrames three_frames) <= 1.
Proof.
  destruct (aggregateFrames_majority_mean three_frames) as (H1 & _ & _ & H4);
    [discriminate|].
  split; [exact H1|]. apply H4.
  intros f [<-|[<-|[<-|[]]]]; split; discriminate.
Defined.

End AggregateClaim.

(** ** The availability gate seen from the client *)

Section GateFacts.
Import PepperState.

Lemma isPepperAvailable_false room reply :
  isPepperAvailable room reply = false ->
  exists proce, reply = Body proce /\ proce <> Some 1%Z.
Proof.
  destruct reply as [| status | | proce]; simpl; try discriminate.
  intros H. exists proce. split; [reflexivity|].
  intros ->. discriminate.
Qed.

Lemma isPepperAvailableForAudio_eq room reply :
  isPepperAvailableForAudio room reply = isPepperAvailable room reply.
Proof. now destruct reply. Qed.

(** C10. When the status request fails (the fetch throws, or the response
    is not OK) both checks answer [true]; the visual capture window, the
    audio loop and the fusion poll then run exactly as they do when the
    gate answers [proce = 1]. *)
Theorem gate_fails_open (room : string) (reply : status_reply) :
  request_failed reply ->
  isPepperAvailable room reply = true /\
  isPepperAvailableForAudio room reply = true /\
  (forall c0 n c1 a c2 c3 s,
     FaceYolo.captureWindow room (FaceYolo.mkWindowEnv c0 reply n c1 a c2 c3) s =
     FaceYolo.captureWindow room
       (FaceYolo.mkWindowEnv c0 (Body (Some 1%Z)) n c1 a c2 c3) s) /\
  (forall audio m rec api en s,
     SpeechEmotion.loop room (SpeechEmotion.mkLoopEnv audio reply m rec api en) s =
     SpeechEmotion.loop room
       (SpeechEmotion.mkLoopEnv audio (Body (Some 1%Z)) m rec api en) s) /\
  (forall enabled onUpdate now st fu perf r h,
     EmotionFusion.performFusion room enabled onUpdate
       (EmotionFusion.mkEnv reply now st fu perf) r h =
     EmotionFusion.performFusion room enabled onUpdate
       (EmotionFusion.mkEnv (Body (Some 1%Z)) now st fu perf) r h).
Proof.
  intros [-> | [status ->]]; repeat split; reflexivity.
Qed.

Lemma gate_fails_open_witness :
  isPepperAvailable "test" (HttpError 503) = true /\
  isPepperAvailableForAudio "test" (HttpError 503) = true.
Proof.
  assert (H : request_failed (HttpError 503)) by (right; now exists 503%Z).
  destruct (gate_fails_open "test" (HttpError 503) H) as (H1 & H2 & _).
  exact (conj H1 H2).
Defined.

End GateFacts.

(** ** Capture schedulers and the busy gate *)

Section BusyGate.
Import PepperState.
Local Open Scope Q_scope.

(** No frame is captured or classified in a list of effects of the visual
    scheduler. *)
Definition no_visual_sampling (effects : list FaceYolo.effect) : Prop :=
  ~ In FaceYolo.CaptureFrame effects /\ ~ In FaceYolo.ClassifyFrame effects.

(** No probe, recording or classifier call in a list of effects of the
    audio scheduler. *)
Definition no_audio_sampling (room : string) (effects : list SpeechEmotion.effect)
  : Prop :=
  ~ In SpeechEmotion.Precheck effects /\
  ~ In SpeechEmotion.RecordBurst effects /\
  ~ In (SpeechEmotion.Classify room) effects.

Lemma captureWindow_gate_first room env s :
  FaceYolo.cancelled_at_entry env = false ->
  exists rest, fst (FaceYolo.captureWindow room env s) = FaceYolo.GateQuery room :: rest.
Proof.
  intros Hc. unfold FaceYolo.captureWindow. rewrite Hc.
  destruct (negb _); [eexists; reflexivity|].
  destruct (FaceYolo.cancelled_after_capture env); [eexists; reflexivity|].
  destruct (FaceYolo.cancelled_after_analysis env); eexists; reflexivity.
Qed.

Lemma captureWindow_cancelled room env s :
  FaceYolo.cancelled_at_entry env = true ->
  FaceYolo.captureWindow room env s = ([], s).
Proof. intros Hc. unfold FaceYolo.captureWindow. now rewrite Hc. Qed.

Lemma pushNeutral_no_sampling room s reason e :
  In e (SpeechEmotion.pushNeutral s reason) ->
  e <> SpeechEmotion.Precheck /\ e <> SpeechEmotion.RecordBurst /\
  e <> SpeechEmotion.Classify room.
Proof.
  unfold SpeechEmotion.pushNeutral. destruct (SpeechEmotion.onUpdateRef s); simpl.
  - intros [<-|[]]. repeat split; discriminate.
  - intros [].
Qed.

Lemma reschedule_no_sampling room env ms e :
  In e (SpeechEmotion.reschedule env ms) ->
  e <> SpeechEmotion.Precheck /\ e <> SpeechEmotion.RecordBurst /\
  e <> SpeechEmotion.Classify room.
Proof.
  unfold SpeechEmotion.reschedule. destruct (SpeechEmotion.still_enabled env); simpl.
  - intros [<-|[]]. repeat split; discriminate.
  - intros [].
Qed.

(** In the audio loop every probe, recording or classifier call comes
    after the gate query. *)
Lemma loop_gate_first room env s e :
  In e (snd (fst (SpeechEmotion.loop room env s))) ->
  e = SpeechEmotion.Precheck \/ e = SpeechEmotion.RecordBurst \/
  e = SpeechEmotion.Classify room ->
  exists rest,
    snd (fst (SpeechEmotion.loop room env s)) = SpeechEmotion.GateQuery room :: rest.
Proof.
  unfold SpeechEmotion.loop.
  destruct (negb (SpeechEmotion.enabledRef s) || SpeechEmotion.cleanupRef s
            || SpeechEmotion.runningRef s); [intros []|].
  destruct (negb (SpeechEmotion.hasAudio env)).
  - simpl. intros Hin He. apply in_app_or in Hin as [Hin|Hin].
    + apply (pushNeutral_no_sampling room) in Hin. intuition congruence.
    + apply (reschedule_no_sampling room) in Hin. intuition congruence.
  - destruct (negb (isPepperAvailableForAudio room (SpeechEmotion.gate_reply env))).
    + intros _ _. eexists. reflexivity.
    + intros _ _. destruct (SpeechEmotion.measurement env) as [m|].
      * destruct (SpeechEmotion.precheckLoudness _ m) as [vad g].
        destruct (negb (SpeechEmotion.hasVoice vad)).
        -- unfold SpeechEmotion.on_silence. simpl. eexists. reflexivity.
        -- unfold SpeechEmotion.on_voice, SpeechEmotion.back_off.
           destruct (negb (SpeechEmotion.recorded env)); simpl.
           ++ eexists. reflexivity.
           ++ destruct (SpeechEmotion.reply env) as [|status json text]; simpl.
              ** eexists. reflexivity.
              ** destruct (SpeechEmotion.responseOrErrorIsInsufficient _ _ _ _);
                   simpl; eexists; reflexivity.
      * unfold SpeechEmotion.back_off. simpl. eexists. reflexivity.
Qed.

(** C9. Each scheduler queries the gate for its room before it samples.
    When the gate does not read available, the visual window only queries
    the gate and re-arms itself after 2000 ms: no frame is captured or
    classified and the state is left alone.  The audio loop, with a live
    audio track, queries the gate, performs no probe, recording or
    classifier call, and (while the hook stays enabled) schedules its next
    run after 1.5 times its interval. *)
Theorem busy_gate_skips_cycle (room : string)
    (venv : FaceYolo.WindowEnv) (vs : FaceYolo.HookState)
    (aenv : SpeechEmotion.LoopEnv) (s : SpeechEmotion.Sched) :
  FaceYolo.cancelled_at_entry venv = false ->
  isPepperAvailable room (FaceYolo.gate_reply venv) = false ->
  SpeechEmotion.enabledRef s = true ->
  SpeechEmotion.cleanupRef s = false ->
  SpeechEmotion.runningRef s = false ->
  SpeechEmotion.hasAudio aenv = true ->
  SpeechEmotion.still_enabled aenv = true ->
  isPepperAvailableForAudio room (SpeechEmotion.gate_reply aenv) = false ->
  (forall env' s',
     FaceYolo.cancelled_at_entry env' = false ->
     exists rest,
       fst (FaceYolo.captureWindow room env' s') = FaceYolo.GateQuery room :: rest) /\
  (forall env' s' e,
     In e (snd (fst (SpeechEmotion.loop room env' s'))) ->
     e = SpeechEmotion.Precheck \/ e = SpeechEmotion.RecordBurst \/
     e = SpeechEmotion.Classify room ->
     exists rest,
       snd (fst (SpeechEmotion.loop room env' s')) =
       SpeechEmotion.GateQuery room :: rest) /\
  FaceYolo.captureWindow room venv vs =
    ([FaceYolo.GateQuery room; FaceYolo.SetTimeout 2000], vs) /\
  no_visual_sampling (fst (FaceYolo.captureWindow room venv vs)) /\
  (exists fallback,
     snd (fst (SpeechEmotion.loop room aenv s)) =
       (SpeechEmotion.GateQuery room :: fallback ++
        [SpeechEmotion.Schedule (SpeechEmotion.intervalMsRef s * (15 # 10))])%list /\
     fallback = SpeechEmotion.pushNeutral s "pepper_busy") /\
  fst (fst (SpeechEmotion.loop room aenv s)) = SpeechEmotion.PepperBusy /\
  no_audio_sampling room (snd (fst (SpeechEmotion.loop room aenv s))).
Proof.
  intros Hc Hbusy Hen Hcl Hrun Haudio Hstill Habusy.
  assert (Hv : FaceYolo.captureWindow room venv vs =
               ([FaceYolo.GateQuery room; FaceYolo.SetTimeout 2000], vs)).
  { unfold FaceYolo.captureWindow. now rewrite Hc, Hbusy. }
  assert (Ha : SpeechEmotion.loop room aenv s =
    (SpeechEmotion.PepperBusy,
     (SpeechEmotion.GateQuery room :: SpeechEmotion.pushNeutral s "pepper_busy" ++
      [SpeechEmotion.Schedule (SpeechEmotion.intervalMsRef s * (15 # 10))])%list,
     SpeechEmotion.finally
       (SpeechEmotion.resetBackoff
          (SpeechEmotion.set_running false (SpeechEmotion.set_running true s))))).
  { unfold SpeechEmotion.loop, SpeechEmotion.reschedule.
    rewrite Hen, Hcl, Hrun, Haudio, Habusy, Hstill. reflexivity. }
  split; [intros env' s'; apply captureWindow_gate_first|].
  split; [intros env' s'; apply loop_gate_first|].
  rewrite Hv, Ha. simpl fst. simpl snd. repeat split.
  - intros [H|[H|[]]]; discriminate.
  - intros [H|[H|[]]]; discriminate.
  - eexists. split; reflexivity.
  - intros [H|H]; [discriminate|]. apply in_app_or in H as [H|[H|[]]].
    + apply (pushNeutral_no_sampling room) in H. intuition congruence.
    + discriminate.
  - intros [H|H]; [discriminate|]. apply in_app_or in H as [H|[H|[]]].
    + apply (pushNeutral_no_sampling room) in H. intuition congruence.
    + discriminate.
  - intros [H|H]; [discriminate|]. apply in_app_or in H as [H|[H|[]]].
    + apply (pushNeutral_no_sampling room) in H. intuition congruence.
    + discriminate.
Qed.

Lemma busy_gate_skips_cycle_witness :
  FaceYolo.captureWindow "test"
    (FaceYolo.mkWindowEnv false (Body (Some 0%Z)) 0 false [] false false)
    FaceYolo.initial_state =
  ([FaceYolo.GateQuery "test"; FaceYolo.SetTimeout 2000], FaceYolo.initial_state) /\
  fst (fst (SpeechEmotion.loop "test"
              (SpeechEmotion.mkLoopEnv true (Body (Some 0%Z)) None false
                 SpeechEmotion.ApiFetchRejects true)
              (SpeechEmotion.initial_sched SpeechEmotion.INTERVAL_MS true))) =
  SpeechEmotion.PepperBusy.
Proof.
  destruct (busy_gate_skips_cycle "test"
              (FaceYolo.mkWindowEnv false (Body (Some 0%Z)) 0 false [] false false)
              FaceYolo.initial_state
              (SpeechEmotion.mkLoopEnv true (Body (Some 0%Z)) None false
                 SpeechEmotion.ApiFetchRejects true)
              (SpeechEmotion.initial_sched SpeechEmotion.INTERVAL_MS true))
    as (_ & _ & H1 & _ & _ & H2 & _); try reflexivity.
  exact (conj H1 H2).
Defined.

(** The audio retry of the example: 1.5 x 8000 ms. *)
Example busy_audio_retry_example :
  snd (fst (SpeechEmotion.loop "test"
              (SpeechEmotion.mkLoopEnv true (Body (Some 0%Z)) None false
                 SpeechEmotion.ApiFetchRejects true)
              (SpeechEmotion.initial_sched SpeechEmotion.INTERVAL_MS true))) =
  [SpeechEmotion.GateQuery "test";
   SpeechEmotion.OnUpdate
     (SpeechEmotion.Fallback "neutral" (5 # 10) "pepper_busy" "lstm-tess-custom");
   SpeechEmotion.Schedule (8000 * (15 # 10))].
Proof. reflexivity. Qed.

End BusyGate.

(** ** A window with no usable frame *)

Section EmptyWindow.
Import FaceYolo.
Local Open Scope Q_scope.

(** What [aggregateFrames] returns for no frame at all. *)
Definition neutral_aggregate : Aggregate :=
  mkAggregate "neutral" 0 0 0 None None None.

(** The state an empty window publishes. *)
Definition neutral_state : HookState :=
  mkHookState "neutral" 0 true None (Some neutral_aggregate) 0 None None.

(** The window publishes nothing: no [setState], and the state it leaves
    is the state it found. *)
Definition publishes_nothing (room : string) (env : WindowEnv) (s : HookState)
  : Prop :=
  (forall s', ~ In (SetState s') (fst (captureWindow room env s))) /\
  snd (captureWindow room env s) = s.

(** A window in which both classifier calls failed. *)
Definition failed_window : WindowEnv :=
  mkWindowEnv false (PepperState.Body (Some 1%Z)) 2 false [None; None] false false.

(** C7, as stated, fails: a window whose two analyses both failed still
    publishes a result, the neutral placeholder. *)
Lemma empty_window_publishes_neutral :
  usable (analyses failed_window) = [] /\
  captureWindow "test" failed_window initial_state =
    ([GateQuery "test"; CaptureFrame; CaptureFrame; ClassifyFrame; ClassifyFrame;
      SetState neutral_state; SetTimeout 2000], neutral_state) /\
  ~ publishes_nothing "test" failed_window initial_state.
Proof.
  split; [reflexivity|]. split; [reflexivity|].
  intros [Hno _]. apply (Hno neutral_state). simpl. tauto.
Qed.

(** C7, amended. A window that is not cancelled, passes the gate and has
    no usable frame is not an error: it publishes the placeholder state,
    label neutral with score 0 and frame count 0, with [error] cleared,
    and re-arms itself after 2000 ms. *)
Theorem empty_window_is_neutral (room : string) (env : WindowEnv) (s : HookState) :
  cancelled_at_entry env = false ->
  cancelled_after_capture env = false ->
  cancelled_after_analysis env = false ->
  cancelled_at_schedule env = false ->
  PepperState.isPepperAvailable room (gate_reply env) = true ->
  usable (analyses env) = [] ->
  captureWindow room env s =
    ((GateQuery room :: repeat CaptureFrame (captured env) ++
      map (fun _ => ClassifyFrame) (analyses env) ++
      [SetState neutral_state; SetTimeout 2000])%list,
     neutral_state) /\
  st_error neutral_state = None /\
  st_label neutral_state = "neutral"%string /\
  st_score neutral_state == 0 /\
  st_frameCount neutral_state = O.
Proof.
  intros H0 H1 H2 H3 Hgate Hnone. unfold captureWindow.
  rewrite H0, Hgate, H1, H2, H3, Hnone. simpl negb. cbv iota.
  change (aggregateFrames []) with neutral_aggregate.
  repeat split; try reflexivity.
  simpl. rewrite <- app_assoc. reflexivity.
Qed.

Lemma empty_window_is_neutral_witness :
  captureWindow "test" failed_window initial_state =
    ((GateQuery "test" :: repeat CaptureFrame (captured failed_window) ++
      map (fun _ => ClassifyFrame) (analyses failed_window) ++
      [SetState neutral_state; SetTimeout 2000])%list,
     neutral_state).
Proof.
  exact (proj1 (empty_window_is_neutral "test" failed_window initial_state
                  eq_refl eq_refl eq_refl eq_refl eq_refl eq_refl)).
Defined.

End EmptyWindow.

(** ** Normalization of the label sent to the actuator *)

Section Normalize.
Import Js PepperEmotionClient.
Local Open Scope string_scope.

(** C6, as stated, fails: [angry] is normalized to [anger], which is not
    a member of the EmotionLabel enumeration. *)
Lemma normalizeEmotion_angry_is_anger :
  normalizeEmotion (Some "angry") = "anger" /\
  In "angry" EmotionLabel /\
  ~ In (normalizeEmotion (Some "angry")) EmotionLabel.
Proof.
  split; [reflexivity|]. split; [simpl; tauto|].
  simpl. intros H. repeat destruct H as [H|H]; try discriminate H. exact H.
Qed.

(** C6, amended. For every input, [normalizeEmotion] returns one of
    happy, sad, anger, surprise, fear, disgust, neutral, each of which has
    a script in [FILE_BY_EMOTION]; the result is a member of EmotionLabel
    unless it is [anger]; and [null], the empty string and every label that
    is none of the recognised spellings are mapped to neutral. *)
Theorem normalizeEmotion_closed (label : option string) :
  In (normalizeEmotion label) normalized_labels /\
  obj_get FILE_BY_EMOTION (normalizeEmotion label) <> None /\
  (normalizeEmotion label = "anger" \/ In (normalizeEmotion label) EmotionLabel) /\
  normalizeEmotion None = "neutral" /\
  normalizeEmotion (Some "") = "neutral" /\
  (forall l,
     label = Some l ->
     among ["joy"; "happy"; "anger"; "angry"; "sad"; "sadness"; "surprise";
            "surprised"; "disgust"; "disgusted"; "fear"; "scared"; "afraid"]
       (trim (toLowerCase l)) = false ->
     normalizeEmotion label = "neutral").
Proof.
  assert (Hcases :
    normalizeEmotion label = "happy" \/ normalizeEmotion label = "anger" \/
    normalizeEmotion label = "sad" \/ normalizeEmotion label = "surprise" \/
    normalizeEmotion label = "disgust" \/ normalizeEmotion label = "fear" \/
    normalizeEmotion label = "neutral").
  { unfold normalizeEmotion. destruct label as [[|c l]|]; auto 10.
    repeat match goal with
           | |- context [if ?b then _ else _] => destruct b
           end; auto 10. }
  repeat split.
  - destruct Hcases as [H|[H|[H|[H|[H|[H|H]]]]]]; rewrite H; simpl; tauto.
  - destruct Hcases as [H|[H|[H|[H|[H|[H|H]]]]]]; rewrite H; simpl; discriminate.
  - destruct Hcases as [H|[H|[H|[H|[H|[H|H]]]]]]; rewrite H; simpl; tauto.
  - intros l -> Hnone. unfold normalizeEmotion.
    destruct l as [|c l]; [reflexivity|].
    remember (trim (toLowerCase (String c l))) as t.
    unfold among in *. simpl existsb in *.
    repeat match type of Hnone with
           | (_ || _)%bool = false => apply orb_false_elim in Hnone as [? Hnone]
           end.
    repeat match goal with
           | H : String.eqb ?a ?b = false |- context [String.eqb ?a ?b] => rewrite H
           end.
    simpl. destruct (String.eqb t "neutral" || _)%bool; reflexivity.
Qed.

Example normalizeEmotion_examples :
  normalizeEmotion (Some "  Happy ") = "happy" /\
  normalizeEmotion (Some "JOY") = "happy" /\
  normalizeEmotion (Some "Sadness") = "sad" /\
  normalizeEmotion (Some "scared") = "fear" /\
  normalizeEmotion (Some "bored") = "neutral".
Proof. repeat split. Qed.

End Normalize.

(** ** Failure backoff of the audio scheduler *)

Section Backoff.
Import SpeechEmotion.
Local Open Scope Z_scope.

(** A voiced cycle whose classifier request fails to connect. *)
Definition failing_cycle : LoopEnv :=
  mkLoopEnv true (PepperState.Body (Some 1))
    (Some (mkMeasurement (1 # 10) (2 # 10) (5 # 100))) true ApiFetchRejects true.


(** The two refs the backoff lives in. *)
Definition backoff_state (s : Sched) : nat * Z := (failsRef s, backoffRef s).

Lemma scheduled_app a b : scheduled (a ++ b) = (scheduled a ++ scheduled b)%list.
Proof. unfold scheduled. apply flat_map_app. Qed.

Lemma scheduled_pushNeutral s reason : scheduled (pushNeutral s reason) = [].
Proof. unfold pushNeutral. now destruct (onUpdateRef s). Qed.

Lemma scheduled_pushSilence s reason : scheduled (pushSilence s reason) = [].
Proof. unfold pushSilence. now destruct (onUpdateRef s). Qed.

(** What a failure exit does to the backoff, before the [finally] block. *)
Lemma back_off_spec env reason done s :
  scheduled done = [] ->
  let d := Z.min BACKOFF_MAX (backoffRef s * 2) in
  fst (fst (back_off env reason done s)) = Failure reason /\
  scheduled (snd (fst (back_off env reason done s))) =
    (if still_enabled env then [inject_Z d] else []) /\
  backoff_state (snd (back_off env reason done s)) = ((failsRef s + 1)%nat, d).
Proof.
  intros Hdone d. unfold back_off, bumpBackoff. simpl.
  rewrite !scheduled_app, Hdone, scheduled_pushNeutral. simpl.
  unfold reschedule. destruct (still_enabled env); auto.
Qed.

Lemma finally_backoff s :
  backoff_state (finally s) =
  if (MAX_CONSEC_FAILS <=? failsRef s)%nat then (O, BACKOFF_BASE) else backoff_state s.
Proof.
  unfold finally. now destruct (MAX_CONSEC_FAILS <=? failsRef s)%nat.
Qed.

(** Every exit of the loop other than a failure resets the backoff; a
    failure bumps it. *)
Lemma loop_backoff room env s :
  let r := loop room env s in
  let d := Z.min BACKOFF_MAX (backoffRef s * 2) in
  match fst (fst r) with
  | Idle => snd r = s
  | Failure _ =>
      scheduled (snd (fst r)) = (if still_enabled env then [inject_Z d] else []) /\
      backoff_state (snd r) =
        if (MAX_CONSEC_FAILS <=? failsRef s + 1)%nat
        then (O, BACKOFF_BASE) else ((failsRef s + 1)%nat, d)
  | _ => backoff_state (snd r) = (O, BACKOFF_BASE)
  end.
Proof.
  unfold loop.
  destruct (negb (enabledRef s) || cleanupRef s || runningRef s); [reflexivity|].
  destruct (negb (hasAudio env)); [reflexivity|].
  destruct (negb (PepperState.isPepperAvailableForAudio room (gate_reply env)));
    [reflexivity|].
  assert (Hfin : forall t : outcome * list effect * Sched,
    (let '(o, effects, s1) := t in (o, effects, finally s1)) =
    (fst (fst t), snd (fst t), finally (snd t))) by (intros [[? ?] ?]; reflexivity).
  assert (Hfail : forall reason done s0,
    scheduled done = [] -> backoff_state s0 = backoff_state s ->
    let t := back_off env reason done s0 in
    scheduled (snd (fst t)) =
      (if still_enabled env
       then [inject_Z (Z.min BACKOFF_MAX (backoffRef s * 2))] else []) /\
    backoff_state (finally (snd t)) =
      if (MAX_CONSEC_FAILS <=? failsRef s + 1)%nat
      then (O, BACKOFF_BASE)
      else ((failsRef s + 1)%nat, Z.min BACKOFF_MAX (backoffRef s * 2))).
  { intros reason done s0 Hdone Hs0 t. subst t.
    unfold backoff_state in Hs0. injection Hs0 as Hf Hb.
    unfold back_off, bumpBackoff. simpl.
    rewrite !scheduled_app, Hdone, scheduled_pushNeutral. simpl. split.
    - unfold reschedule. rewrite Hb. now destruct (still_enabled env).
    - rewrite finally_backoff. unfold backoff_state. simpl. now rewrite Hf, Hb. }
  assert (Hexit : forall reason done s0,
    scheduled done = [] -> backoff_state s0 = backoff_state s ->
    match fst (fst (let '(o, effects, s1) := back_off env reason done s0 in
                    (o, effects, finally s1))) with
    | Idle => snd (let '(o, effects, s1) := back_off env reason done s0 in
                   (o, effects, finally s1)) = s
    | Failure _ =>
        scheduled (snd (fst (let '(o, effects, s1) := back_off env reason done s0 in
                             (o, effects, finally s1)))) =
          (if still_enabled env
           then [inject_Z (Z.min BACKOFF_MAX (backoffRef s * 2))] else []) /\
        backoff_state (snd (let '(o, effects, s1) := back_off env reason done s0 in
                            (o, effects, finally s1))) =
          if (MAX_CONSEC_FAILS <=? failsRef s + 1)%nat
          then (O, BACKOFF_BASE)
          else ((failsRef s + 1)%nat, Z.min BACKOFF_MAX (backoffRef s * 2))
    | _ => backoff_state (snd (let '(o, effects, s1) := back_off env reason done s0 in
                               (o, effects, finally s1))) = (O, BACKOFF_BASE)
    end).
  { intros reason done s0 Hdone Hs0. rewrite Hfin. cbn [fst snd].
    change (fst (fst (back_off env reason done s0))) with (Failure reason).
    cbv iota. apply Hfail; assumption. }
  destruct (measurement env) as [m|].
  - destruct (precheckLoudness (globals (set_running true s)) m) as [vad g].
    destruct (negb (hasVoice vad)).
    + reflexivity.
    + unfold on_voice.
      destruct (negb (recorded env)); [apply Hexit; reflexivity|].
      destruct (reply env) as [|status json text]; [apply Hexit; reflexivity|].
      destruct (responseOrErrorIsInsufficient status text json None);
        [apply Hexit; reflexivity | reflexivity].
  - apply Hexit; reflexivity.
Qed.

(** In every reachable state fewer than [MAX_CONSEC_FAILS] failures are
    counted and the backoff is the base doubled once per counted failure. *)
Lemma reachable_backoff room s :
  reachable room s ->
  (failsRef s < MAX_CONSEC_FAILS)%nat /\
  backoffRef s = BACKOFF_BASE * 2 ^ Z.of_nat (failsRef s).
Proof.
  induction 1 as [intervalMs onUpdate | env s Hs [IHf IHb]].
  - split; [unfold MAX_CONSEC_FAILS; simpl; lia | reflexivity].
  - pose proof (loop_backoff room env s) as H. cbv zeta in H.
    unfold MAX_CONSEC_FAILS, BACKOFF_BASE, BACKOFF_MAX in *.
    assert (Hcases : failsRef s = 0%nat \/ failsRef s = 1%nat \/ failsRef s = 2%nat)
      by lia.
    destruct (fst (fst (loop room env s)));
      try (unfold backoff_state in H; injection H as -> ->; simpl; split; [lia|reflexivity]).
    + rewrite H. auto.
    + destruct H as [_ H]. unfold backoff_state in H.
      destruct Hcases as [E|[E|E]]; rewrite E in *; rewrite IHb in H; simpl in H;
        injection H as -> ->; simpl; split; (lia || reflexivity).
Qed.


Lemma scheduled_reschedule env ms :
  scheduled (reschedule env ms) = if still_enabled env then [ms] else [].
Proof. unfold reschedule. now destruct (still_enabled env). Qed.




(** A voiced cycle answered with HTTP 500 and a plain-text body. *)
Definition http500_cycle : LoopEnv :=
  mkLoopEnv true (PepperState.Body (Some 1))
    (Some (mkMeasurement (1 # 10) (2 # 10) (5 # 100))) true
    (ApiResponse 500 None (Some "Internal Server Error"%string)) true.

(** A response that is not a resource-exhaustion signal takes the success
    exit even when its status is not OK: after one failure, an HTTP 500
    resets the backoff and the run after it starts from the base again. *)
Example http500_takes_success_exit :
  answered "test" http500_cycle
    (snd (loop "test" failing_cycle (initial_sched INTERVAL_MS true))) /\
  map fst (fst (run "test" [failing_cycle; http500_cycle; failing_cycle]
                  (initial_sched INTERVAL_MS true))) =
    [Failure "fetch_error"; Success; Failure "fetch_error"] /\
  delays (fst (run "test" [failing_cycle; http500_cycle; failing_cycle]
                 (initial_sched INTERVAL_MS true))) =
    [4000%Q; 8000%Q; 4000%Q].
Proof.
  split; [|split; vm_compute; reflexivity].
  repeat split. exists (mkMeasurement (1 # 10) (2 # 10) (5 # 100)), 500, None,
    (Some "Internal Server Error"%string).
  repeat split.
Qed.



End Backoff.

(** ** The adaptive voice-activity threshold *)

Section AdaptiveThreshold.
Import SpeechEmotion.
Local Open Scope Q_scope.

Lemma insert_sorted_perm x l : Permutation (insert_sorted x l) (x :: l).
Proof.
  induction l as [|y l IH]; simpl; [constructor; constructor|].
  destruct (Qle_bool x y); [apply Permutation_refl|].
  apply perm_trans with (y :: x :: l); [now constructor | constructor].
Qed.

Lemma sort_ascending_perm l : Permutation (sort_ascending l) l.
Proof.
  induction l as [|x l IH]; simpl; [constructor|].
  apply perm_trans with (x :: sort_ascending l);
    [apply insert_sorted_perm | now constructor].
Qed.

Lemma insert_sorted_sorted x l :
  StronglySorted Qle l -> StronglySorted Qle (insert_sorted x l).
Proof.
  induction 1 as [|y l Hs IH Hall]; simpl; [repeat constructor|].
  destruct (Qle_bool x y) eqn:E.
  - apply Qle_bool_iff in E. constructor; [now constructor|].
    constructor; [exact E|].
    eapply Forall_impl; [|exact Hall]. intros z Hz. eapply Qle_trans; eauto.
  - assert (Hyx : y <= x).
    { apply Qlt_le_weak, Qnot_le_lt. intros H. apply Qle_bool_iff in H. congruence. }
    constructor; [exact IH|].
    eapply Permutation_Forall; [apply Permutation_sym, insert_sorted_perm|].
    constructor; assumption.
Qed.

Lemma sort_ascending_sorted l : StronglySorted Qle (sort_ascending l).
Proof.
  induction l as [|x l IH]; simpl; [constructor | now apply insert_sorted_sorted].
Qed.

(** The rolling window: push, then drop the oldest reading beyond ten. *)
Lemma window_rolls (history : list Q) (x : Q) :
  let pushed := (last_n 10 history ++ [x])%list in
  (if (10 <? List.length pushed)%nat then tl pushed else pushed) =
  last_n 10 (history ++ [x]).
Proof.
  unfold last_n. cbv zeta. rewrite !length_app, length_skipn. simpl List.length.
  destruct (Nat.le_gt_cases (List.length history) 9) as [Hle|Hgt].
  - replace (List.length history - 10)%nat with O by lia.
    replace (List.length history + 1 - 10)%nat with O by lia. simpl skipn.
    destruct (Nat.ltb_spec 10 (List.length history - 0 + 1)); [lia | reflexivity].
  - destruct (Nat.ltb_spec 10 (List.length history - (List.length history - 10) + 1));
      [|lia].
    replace (List.length history + 1 - 10)%nat
      with (S (List.length history - 10)) by lia.
    rewrite skipn_app.
    replace (S (List.length history - 10) - List.length history)%nat with O by lia.
    simpl (skipn 0 [x]).
    remember (List.length history - 10)%nat as k.
    assert (Hk : (k < List.length history)%nat) by lia.
    clear - Hk. revert k Hk. induction history as [|h history IH]; intros k Hk.
    + simpl in Hk. lia.
    + destruct k as [|k].
      * reflexivity.
      * simpl in Hk. change (skipn (S k) (h :: history)) with (skipn k history).
        change (skipn (S (S k)) (h :: history)) with (skipn (S k) history).
        apply IH. lia.
Qed.

(** A probe in a loud room: an average RMS of 0.1. *)
Definition loud_probe : Measurement := mkMeasurement (1 # 10) (2 # 10) (5 # 100).

(** C4, as stated, fails: after three probes reading 0.1 the ambient
    estimate is 0.1 and max(min_floor, 1.5 x 0.1) is 0.15, but the adaptive
    threshold is 0.015, the upper bound [SILENCE_RMS_MAX]. *)
Lemma loud_room_threshold_is_capped :
  recentRMS (vadState (probe_all [loud_probe; loud_probe; loud_probe] initial_globals)) =
    [1 # 10; 1 # 10; 1 # 10] /\
  ambientNoiseLevel
    (vadState (probe_all [loud_probe; loud_probe; loud_probe] initial_globals)) == 1 # 10 /\
  SILENCE_RMS_ADAPTIVE (probe_all [loud_probe; loud_probe; loud_probe] initial_globals)
    == 15 # 1000 /\
  ~ SILENCE_RMS_ADAPTIVE (probe_all [loud_probe; loud_probe; loud_probe] initial_globals)
    == Qmax SILENCE_RMS_MIN ((15 # 10) * (((1 # 10) + (1 # 10) + (1 # 10)) / 3)).
Proof.
  repeat split; try reflexivity.
  vm_compute. discriminate.
Qed.

(** C4, amended. After a probe that leaves at least three readings in the
    window, the window holds the last ten readings, the ambient estimate is
    the mean of its three lowest readings, and the adaptive threshold (the
    one the probe reports) is
    min(SILENCE_RMS_MAX, max(SILENCE_RMS_MIN, 1.5 x ambient)). *)
Theorem adaptive_threshold_after_probe
    (history : list Q) (g : Globals) (m : Measurement) :
  recentRMS (vadState g) = last_n 10 history ->
  (2 <= List.length history)%nat ->
  let window := last_n 10 (history ++ [rmsAvg m]) in
  recentRMS (vadState (snd (precheckLoudness g m))) = window /\
  threshold (fst (precheckLoudness g m)) =
    SILENCE_RMS_ADAPTIVE (snd (precheckLoudness g m)) /\
  exists a b c rest,
    Permutation window (a :: b :: c :: rest) /\
    a <= b /\ b <= c /\ Forall (fun x => c <= x) rest /\
    ambientNoiseLevel (vadState (snd (precheckLoudness g m))) == (a + b + c) / 3 /\
    SILENCE_RMS_ADAPTIVE (snd (precheckLoudness g m)) ==
      Qmin SILENCE_RMS_MAX (Qmax SILENCE_RMS_MIN ((15 # 10) * ((a + b + c) / 3))).
Proof.
  intros Hwin Hlen window. unfold precheckLoudness. cbv zeta. cbn [fst snd].
  cbn [recentRMS vadState threshold SILENCE_RMS_ADAPTIVE ambientNoiseLevel].
  rewrite Hwin. rewrite (window_rolls history (rmsAvg m)). fold window.
  split; [reflexivity|]. split; [reflexivity|].
  pose proof (sort_ascending_perm window) as Hperm.
  pose proof (sort_ascending_sorted window) as Hsorted.
  assert (Hw : (3 <= List.length window)%nat).
  { unfold window, last_n. rewrite length_skipn, length_app. simpl. lia. }
  rewrite <- (Permutation_length Hperm) in Hw.
  destruct (sort_ascending window) as [|a [|b [|c rest]]]; simpl in Hw; try lia.
  exists a, b, c, rest.
  inversion Hsorted as [|? ? Hs1 Ha]; subst.
  inversion Hs1 as [|? ? Hs2 Hb]; subst.
  inversion Hs2 as [|? ? Hs3 Hc]; subst.
  inversion Ha as [|? ? Hab _]; subst. inversion Hb as [|? ? Hbc _]; subst.
  assert (Hsum : Js.sum (firstn 3 (a :: b :: c :: rest)) / 3 == (a + b + c) / 3).
  { unfold Js.sum. simpl. field. }
  repeat split; auto.
  - now apply Permutation_sym.
  - rewrite Hsum. rewrite (Qmult_comm ((a + b + c) / 3)). reflexivity.
Qed.

Lemma adaptive_threshold_after_probe_witness :
  recentRMS (vadState (snd (precheckLoudness
                              (probe_all [loud_probe; loud_probe] initial_globals)
                              loud_probe))) =
  last_n 10 ([1 # 10; 1 # 10] ++ [rmsAvg loud_probe]).
Proof.
  exact (proj1 (adaptive_threshold_after_probe [1 # 10; 1 # 10]
                  (probe_all [loud_probe; loud_probe] initial_globals) loud_probe
                  eq_refl (le_n 2))).
Defined.

End AdaptiveThreshold.

(** ** The pull-path fusion poll *)

Section FusionPoll.
Import EmotionFusion.
Local Open Scope Z_scope.

Lemma requests_fuse_app room a b :
  requests_fuse room (a ++ b) = requests_fuse room a || requests_fuse room b.
Proof. unfold requests_fuse. apply existsb_app. Qed.

Lemma checks_buffer_app room a b :
  checks_buffer room (a ++ b) = checks_buffer room a || checks_buffer room b.
Proof. unfold checks_buffer. apply existsb_app. Qed.

Lemma logs_error_app a b : logs_error (a ++ b) = logs_error a || logs_error b.
Proof. unfold logs_error. apply existsb_app. Qed.

(** The [catch] block sends no request and keeps the refs but the
    processing flag. *)
Lemma catch_spec room message done r h :
  let out := catch message done r h in
  requests_fuse room (fst (fst out)) = requests_fuse room done /\
  checks_buffer room (fst (fst out)) = checks_buffer room done /\
  snd (fst out) = set_processing false r.
Proof.
  unfold catch. destruct message as [|c message]; [auto|].
  destruct (Js.includes _ _); [auto|]. cbn [fst snd].
  rewrite requests_fuse_app, checks_buffer_app. simpl. now rewrite !orb_false_r.
Qed.

(** Step 2 always sends the fuse request, sends no stats request of its
    own, and leaves [lastCheck] alone. *)
Lemma attempt_fuse_spec room onUpdate env done r h :
  let out := attempt_fuse room onUpdate env done r h in
  requests_fuse room (fst (fst out)) = true /\
  checks_buffer room (fst (fst out)) = checks_buffer room done /\
  lastCheck (snd (fst out)) = lastCheck r.
Proof.
  assert (Hreq : requests_fuse room (done ++ [FuseRequest room]) = true).
  { rewrite requests_fuse_app. simpl. rewrite String.eqb_refl. apply orb_true_r. }
  assert (Hchk : checks_buffer room (done ++ [FuseRequest room]) =
                 checks_buffer room done).
  { rewrite checks_buffer_app. simpl. apply orb_false_r. }
  unfold attempt_fuse.
  destruct (fuse env) as [message | status detail | message | data].
  - destruct (catch_spec room message (done ++ [FuseRequest room]) r h)
      as (H1 & H2 & H3).
    rewrite H1, H2, H3. auto.
  - destruct (status =? 400); [cbn [fst snd]; auto|].
    match goal with
    | |- context [catch ?m _ _ _] =>
        destruct (catch_spec room m (done ++ [FuseRequest room]) r h) as (H1 & H2 & H3)
    end.
    rewrite H1, H2, H3. auto.
  - destruct (catch_spec room message (done ++ [FuseRequest room]) r h)
      as (H1 & H2 & H3).
    rewrite H1, H2, H3. auto.
  - destruct (negb _ || _); cbn [fst snd]; [|auto].
    rewrite requests_fuse_app, checks_buffer_app, Hreq, Hchk.
    destruct onUpdate; simpl; rewrite ?orb_false_r; auto.
Qed.

(** A poll whose buffer-stats request is answered with HTTP 500. *)
Definition stats_down (now : Z) : Env :=
  mkEnv (PepperState.Body (Some 1)) now (StatsNotOk 500)
    (FuseBody (mkFusionData "happy" (8 # 10) "consensus_weighted" (1 # 2) (1 # 2)))
    0%Q.

(** C5, as stated, fails: when the buffer-stats response is not OK the
    fuse request is sent although the buffer reported nothing. *)
Lemma fuse_sent_without_buffer_report :
  fst (fst (performFusion "test" true true (stats_down 5000) initial_refs initial_hook)) =
    [GateQuery "test"; BufferStatsRequest "test"; FuseRequest "test";
     OnUpdate (mkFusionData "happy" (8 # 10) "consensus_weighted" (1 # 2) (1 # 2))] /\
  requests_fuse "test"
    (fst (fst (performFusion "test" true true (stats_down 5000) initial_refs initial_hook)))
    = true /\
  ~ reports_both_fresh (stats (stats_down 5000)).
Proof.
  split; [reflexivity|]. split; [reflexivity|].
  intros (st & H & _). discriminate H.
Qed.

(** C5, amended. A poll sends the fuse request only if the gate check
    answered available, at least 2000 ms passed since the last recorded
    check, and the buffer-stats response either was not OK or reported both
    modalities with latest detections not older than 10 s.  Whenever the
    gate reads busy, or the stats body reports a missing modality or a
    detection that is too old, the poll sends no fuse request, logs no
    error and leaves the hook state (and its [error]) alone. *)
Theorem fuse_request_is_gated (room : string) (enabled onUpdate : bool)
    (env : Env) (r : Refs) (h : Hook) :
  (requests_fuse room (fst (fst (performFusion room enabled onUpdate env r h))) = true ->
   PepperState.isPepperAvailable room (gate_reply env) = true /\
   2000 <= now env - lastCheck r /\
   ((exists status, stats env = StatsNotOk status) \/ reports_both_fresh (stats env))) /\
  (PepperState.isPepperAvailable room (gate_reply env) = false \/
   reports_missing_or_stale (stats env) ->
   requests_fuse room (fst (fst (performFusion room enabled onUpdate env r h))) = false /\
   logs_error (fst (fst (performFusion room enabled onUpdate env r h))) = false /\
   snd (performFusion room enabled onUpdate env r h) = h).
Proof.
  unfold performFusion.
  destruct (String.eqb room "" || negb enabled).
  { split; [discriminate | auto]. }
  destruct (isProcessingRef r).
  { split; [discriminate | auto]. }
  destruct (PepperState.isPepperAvailable room (gate_reply env)) eqn:Hgate; cbn [negb].
  2: { split; [discriminate | auto]. }
  destruct (Z.ltb_spec (now env - lastCheck r) 2000) as [Hsoon|Hlate].
  { split; [discriminate | auto]. }
  destruct (stats env) as [message | status | message | st] eqn:Hstats.
  - destruct (catch_spec room message [GateQuery room; BufferStatsRequest room] r h)
      as (H1 & _ & _).
    rewrite H1. split; [discriminate|].
    intros [Hb | (st & Hst & _)]; discriminate.
  - split.
    + intros _. repeat split; auto. left. now exists status.
    + intros [Hb | (st & Hst & _)]; discriminate.
  - destruct (catch_spec room message [GateQuery room; BufferStatsRequest room] r h)
      as (H1 & _ & _).
    rewrite H1. split; [discriminate|].
    intros [Hb | (st & Hst & _)]; discriminate.
  - destruct (has_both st) eqn:Hboth; cbn [negb].
    2: { split; [discriminate | auto]. }
    destruct (over_10000 (face_latest_age_ms st)) eqn:Hface; cbn [orb].
    { split; [discriminate | auto]. }
    destruct (over_10000 (audio_latest_age_ms st)) eqn:Haudio.
    { split; [discriminate | auto]. }
    split.
    + intros _. repeat split; auto. right. exists st. auto.
    + intros [Hb | (st' & Hst & Hbad)]; [discriminate|].
      injection Hst as <-. rewrite Hboth, Hface, Haudio in Hbad.
      destruct Hbad as [Hbad|[Hbad|Hbad]]; discriminate.
Qed.

(** A tick that comes less than 2000 ms after the recorded check sends
    neither request and records nothing. *)
Lemma performFusion_debounce room enabled onUpdate env r h :
  now env - lastCheck r < 2000 ->
  checks_buffer room (fst (fst (performFusion room enabled onUpdate env r h))) = false /\
  requests_fuse room (fst (fst (performFusion room enabled onUpdate env r h))) = false /\
  lastCheck (snd (fst (performFusion room enabled onUpdate env r h))) = lastCheck r.
Proof.
  intros Hsoon. unfold performFusion.
  destruct (String.eqb room "" || negb enabled); [auto|].
  destruct (isProcessingRef r); [auto|].
  destruct (negb (PepperState.isPepperAvailable room (gate_reply env))); [auto|].
  destruct (Z.ltb_spec (now env - lastCheck r) 2000); [auto | lia].
Qed.

(** A tick that checked the buffer and got a stats body recorded its own
    clock as the last check. *)
Lemma performFusion_records_check room enabled onUpdate env r h st :
  stats env = StatsBody st ->
  checks_buffer room (fst (fst (performFusion room enabled onUpdate env r h))) = true ->
  lastCheck (snd (fst (performFusion room enabled onUpdate env r h))) = now env.
Proof.
  intros Hst. unfold performFusion.
  destruct (String.eqb room "" || negb enabled); [discriminate|].
  destruct (isProcessingRef r); [discriminate|].
  destruct (negb (PepperState.isPepperAvailable room (gate_reply env))); [discriminate|].
  destruct (now env - lastCheck r <? 2000); [discriminate|].
  rewrite Hst. intros _.
  destruct (negb (has_both st)); [reflexivity|].
  destruct (over_10000 _ || over_10000 _); [reflexivity|].
  match goal with
  | |- context [attempt_fuse ?a ?b ?c ?d ?e ?f] =>
      destruct (attempt_fuse_spec a b c d e f) as (_ & _ & H)
  end.
  rewrite H. reflexivity.
Qed.

(** C8, at the failing input. The first tick checks the buffer and is
    answered with HTTP 500; [lastCheck] is written only once an OK response
    has been parsed, so the check is not recorded, and the tick 1000 ms
    later sends the buffer-stats request (and the fuse request) again
    instead of being skipped. *)
Lemma failed_check_is_not_debounced :
  ticks "test" true true [stats_down 5000; stats_down 6000] initial_refs initial_hook =
    [[GateQuery "test"; BufferStatsRequest "test"; FuseRequest "test";
      OnUpdate (mkFusionData "happy" (8 # 10) "consensus_weighted" (1 # 2) (1 # 2))];
     [GateQuery "test"; BufferStatsRequest "test"; FuseRequest "test"]] /\
  ~ debounced "test" true true (stats_down 5000) (stats_down 6000)
      initial_refs initial_hook.
Proof.
  split; [reflexivity|].
  unfold debounced. simpl. intros H.
  destruct (H eq_refl eq_refl) as [H1 _]. discriminate H1.
Qed.

(** A tick that comes less than 2000 ms after the last recorded buffer
    check sends neither a buffer-stats nor a fuse request.  A check is
    recorded once its stats body has been parsed, so of two ticks in a row
    the second is skipped when the first checked the buffer, received a
    stats body, and the second comes less than 2000 ms later. *)
Theorem poll_debounce (room : string) (enabled onUpdate : bool)
    (env1 env2 : Env) (r : Refs) (h : Hook) (st : Stats) :
  stats env1 = StatsBody st ->
  checks_buffer room (fst (fst (performFusion room enabled onUpdate env1 r h))) = true ->
  now env2 - now env1 < 2000 ->
  checks_buffer room
    (fst (fst (performFusion room enabled onUpdate env2
                 (snd (fst (performFusion room enabled onUpdate env1 r h)))
                 (snd (performFusion room enabled onUpdate env1 r h))))) = false /\
  requests_fuse room
    (fst (fst (performFusion room enabled onUpdate env2
                 (snd (fst (performFusion room enabled onUpdate env1 r h)))
                 (snd (performFusion room enabled onUpdate env1 r h))))) = false /\
  (forall env r' h',
     now env - lastCheck r' < 2000 ->
     checks_buffer room (fst (fst (performFusion room enabled onUpdate env r' h'))) = false /\
     requests_fuse room (fst (fst (performFusion room enabled onUpdate env r' h'))) = false).
Proof.
  intros Hst Hchk Hsoon.
  pose proof (performFusion_records_check room enabled onUpdate env1 r h st Hst Hchk)
    as Hrec.
  destruct (performFusion room enabled onUpdate env1 r h) as [[e1 r1] h1].
  cbn [fst snd] in *.
  assert (Hs : now env2 - lastCheck r1 < 2000) by (rewrite Hrec; exact Hsoon).
  destruct (performFusion_debounce room enabled onUpdate env2 r1 h1 Hs) as (H1 & H2 & _).
  repeat split; auto.
  - now apply performFusion_debounce.
  - now apply performFusion_debounce.
Qed.

(** A poll whose buffer-stats request is answered: one face detection,
    no audio detection yet. *)
Definition face_only (now : Z) : Env :=
  mkEnv (PepperState.Body (Some 1)) now
    (StatsBody (mkStats 1 0 false (Some 300%Q) None))
    (FuseNotOk 400 None) 0%Q.

Lemma poll_debounce_witness :
  ticks "test" true true [face_only 5000; face_only 6000] initial_refs initial_hook =
    [[GateQuery "test"; BufferStatsRequest "test"]; [GateQuery "test"]] /\
  checks_buffer "test"
    (fst (fst (performFusion "test" true true (face_only 6000)
                 (snd (fst (performFusion "test" true true (face_only 5000)
                              initial_refs initial_hook)))
                 (snd (performFusion "test" true true (face_only 5000)
                         initial_refs initial_hook))))) = false.
Proof.
  split; [reflexivity|].
  exact (proj1 (poll_debounce "test" true true (face_only 5000) (face_only 6000)
                  initial_refs initial_hook (mkStats 1 0 false (Some 300%Q) None)
                  eq_refl eq_refl eq_refl)).
Defined.

End FusionPoll.

(** ** The 2oo2 weighted fusion *)

Section WeightedFusion.
Import FusionVoting.
Local Open Scope Q_scope.

Lemma clamp_compat x y lo hi : x == y -> clamp x lo hi == clamp y lo hi.
Proof. intros H. unfold clamp. now rewrite H. Qed.

Lemma clamp_cases x lo hi :
  lo <= hi ->
  (x <= lo /\ clamp x lo hi == lo) \/
  (lo <= x <= hi /\ clamp x lo hi == x) \/
  (hi <= x /\ clamp x lo hi == hi).
Proof.
  intros Hlh. unfold clamp.
  destruct (Q.min_spec hi x) as [[H1 E1]|[H1 E1]];
    destruct (Q.max_spec lo (Qmin hi x)) as [[H2 E2]|[H2 E2]];
    rewrite E2; rewrite E1 in *.
  - right. right. split; [lra | reflexivity].
  - right. right. split; [lra | lra].
  - right. left. split; [lra | reflexivity].
  - left. split; [lra | reflexivity].
Qed.

Lemma clamp_bounds x lo hi : lo <= hi -> lo <= clamp x lo hi <= hi.
Proof.
  intros H. destruct (clamp_cases x lo hi H) as [[? E]|[[? E]|[? E]]];
    rewrite E; lra.
Qed.

Lemma Qltb_true x y : Js.Qltb x y = true -> x < y.
Proof.
  unfold Js.Qltb. intros H. apply negb_true_iff in H.
  apply Qnot_le_lt. intros Hle. apply Qle_bool_iff in Hle. congruence.
Qed.

Lemma Qltb_false x y : Js.Qltb x y = false -> y <= x.
Proof.
  unfold Js.Qltb. intros H. apply negb_false_iff in H. now apply Qle_bool_iff.
Qed.

(** The two clamped weights always add up to one, so renormalizing
    changes nothing. *)
Lemma clamped_weights_sum shift :
  clamp (base_face_weight + shift) (30 # 100) (70 # 100) +
  clamp (base_audio_weight - shift) (30 # 100) (70 # 100) == 1.
Proof.
  unfold base_face_weight, base_audio_weight.
  destruct (clamp_cases ((45 # 100) + shift) (30 # 100) (70 # 100))
    as [[H1 E1]|[[H1 E1]|[H1 E1]]]; [lra| | |];
  destruct (clamp_cases ((55 # 100) - shift) (30 # 100) (70 # 100))
    as [[H2 E2]|[[H2 E2]|[H2 E2]]]; try lra; rewrite E1, E2; lra.
Qed.

Lemma dynamic_weights_spec (face speech : Detection) :
  let shift := (5 # 10) * (confidence face - confidence speech) in
  fst (dynamic_weights face speech) ==
    clamp (base_face_weight + shift) (30 # 100) (70 # 100) /\
  snd (dynamic_weights face speech) ==
    clamp (base_audio_weight - shift) (30 # 100) (70 # 100) /\
  fst (dynamic_weights face speech) + snd (dynamic_weights face speech) == 1.
Proof.
  intros shift.
  assert (Hraw : exists a b,
    a == base_face_weight + shift /\ b == base_audio_weight - shift /\
    dynamic_weights face speech =
      (clamp a (30 # 100) (70 # 100) /
         (clamp a (30 # 100) (70 # 100) + clamp b (30 # 100) (70 # 100)),
       clamp b (30 # 100) (70 # 100) /
         (clamp a (30 # 100) (70 # 100) + clamp b (30 # 100) (70 # 100)))).
  { unfold dynamic_weights, shift.
    destruct (Js.Qltb (confidence speech) (confidence face)) eqn:E1.
    - eexists _, _. split; [|split; [|reflexivity]]; lra.
    - destruct (Js.Qltb (confidence face) (confidence speech)) eqn:E2.
      + eexists _, _. split; [|split; [|reflexivity]]; lra.
      + apply Qltb_false in E1, E2.
        eexists _, _. split; [|split; [|reflexivity]]; lra. }
  destruct Hraw as (a & b & Ha & Hb & ->). cbn [fst snd].
  pose proof (clamped_weights_sum shift) as Hsum.
  rewrite <- (clamp_compat _ _ (30 # 100) (70 # 100) Ha) in Hsum.
  rewrite <- (clamp_compat _ _ (30 # 100) (70 # 100) Hb) in Hsum.
  rewrite Hsum.
  rewrite <- (clamp_compat _ _ (30 # 100) (70 # 100) Ha).
  rewrite <- (clamp_compat _ _ (30 # 100) (70 # 100) Hb).
  repeat split; try (field; lra).
  field_simplify. lra.
Qed.

Definition happy_face : Detection := mkDetection "happy" (9 # 10).
Definition sad_speech : Detection := mkDetection "sad" (6 # 10).

(** C2. Two present detections with different labels are fused with
    strategy WeightedFusion.  The weights are the base weights 0.45 and
    0.55 shifted by half the confidence gap toward the more confident
    modality and clamped to [[0.30, 0.70]]; they sum to one (renormalizing
    leaves them as they are).  The fused label is the label of the higher
    weighted confidence, the face on a tie, and the fused confidence is
    that weighted confidence times 0.90, clamped to [[0,1]].  For
    Face = happy(0.9), Speech = sad(0.6) the weights are 0.60 and 0.40
    and the result is happy with confidence 0.486. *)
Theorem weighted_fusion_conflict :
  (forall face speech : Detection,
     label face <> label speech ->
     let r := fuse face speech in
     let shift := (5 # 10) * (confidence face - confidence speech) in
     strategy r = WeightedFusion /\
     weight_face r == clamp (base_face_weight + shift) (30 # 100) (70 # 100) /\
     weight_speech r == clamp (base_audio_weight - shift) (30 # 100) (70 # 100) /\
     weight_face r + weight_speech r == 1 /\
     (30 # 100) <= weight_face r <= (70 # 100) /\
     (30 # 100) <= weight_speech r <= (70 # 100) /\
     (weight_speech r * confidence speech <= weight_face r * confidence face ->
      emotion r = label face /\
      fused_confidence r ==
        clamp (weight_face r * confidence face * (90 # 100)) 0 1) /\
     (weight_face r * confidence face < weight_speech r * confidence speech ->
      emotion r = label speech /\
      fused_confidence r ==
        clamp (weight_speech r * confidence speech * (90 # 100)) 0 1) /\
     0 <= fused_confidence r <= 1) /\
  (weight_face (fuse happy_face sad_speech) == 60 # 100 /\
   weight_speech (fuse happy_face sad_speech) == 40 # 100 /\
   emotion (fuse happy_face sad_speech) = "happy"%string /\
   fused_confidence (fuse happy_face sad_speech) == 486 # 1000 /\
   strategy (fuse happy_face sad_speech) = WeightedFusion).
Proof.
  split; [|repeat split].
  intros face speech Hne r shift. subst r. unfold fuse.
  apply String.eqb_neq in Hne. rewrite Hne.
  destruct (dynamic_weights_spec face speech) as (Hf & Hs & Hsum). fold shift in Hf, Hs.
  destruct (dynamic_weights face speech) as [wf ws]. cbn [fst snd] in Hf, Hs, Hsum.
  pose proof (clamp_bounds (base_face_weight + shift) (30 # 100) (70 # 100)) as Bf.
  pose proof (clamp_bounds (base_audio_weight - shift) (30 # 100) (70 # 100)) as Bs.
  rewrite <- Hf in Bf. rewrite <- Hs in Bs.
  assert (H37 : (30 # 100) <= (70 # 100)) by lra.
  specialize (Bf H37). specialize (Bs H37).
  assert (H01 : 0 <= 1) by lra.
  destruct (Qle_bool (ws * confidence speech) (wf * confidence face)) eqn:E;
    cbn [strategy weight_face weight_speech emotion fused_confidence].
  - apply Qle_bool_iff in E. repeat split; auto; try lra;
      try apply (clamp_bounds _ 0 1 H01).
    all: intros Hlt; exfalso; lra.
  - assert (Hlt : wf * confidence face < ws * confidence speech).
    { apply Qnot_le_lt. intros Hle. apply Qle_bool_iff in Hle. congruence. }
    repeat split; auto; try lra; try apply (clamp_bounds _ 0 1 H01).
    all: intros Hle; exfalso; lra.
Qed.

(** The weights the architecture document writes down agree with the
    specification's wherever the face is at least as confident as the
    speech, the case the document covers. *)
Lemma pesos_dinamicos_agree (face speech : Detection) :
  confidence speech <= confidence face ->
  fst (pesos_dinamicos (confidence face) (confidence speech)) ==
    fst (dynamic_weights face speech) /\
  snd (pesos_dinamicos (confidence face) (confidence speech)) ==
    snd (dynamic_weights face speech).
Proof.
  intros Hle. unfold pesos_dinamicos, dynamic_weights.
  destruct (Js.Qltb (confidence speech) (confidence face)) eqn:E1.
  - cbn [fst snd].
    assert (Ha : base_face_weight + (confidence face - confidence speech) * (5 # 10)
                 == base_face_weight + (5 # 10) * (confidence face - confidence speech))
      by lra.
    assert (Hb : base_audio_weight - (confidence face - confidence speech) * (5 # 10)
                 == base_audio_weight - (5 # 10) * (confidence face - confidence speech))
      by lra.
    rewrite (clamp_compat _ _ (30 # 100) (70 # 100) Ha).
    rewrite (clamp_compat _ _ (30 # 100) (70 # 100) Hb).
    split; reflexivity.
  - destruct (Js.Qltb (confidence face) (confidence speech)) eqn:E2.
    + apply Qltb_true in E2. lra.
    + split; reflexivity.
Qed.

End WeightedFusion.

(* ================================================================== *)
(** * Part III: further properties of the same code                    *)
(* ================================================================== *)

(** ** aggregateFrames: the fields beside label and confidence *)

Section AggregateFields.
Import Js FaceYolo.
Local Open Scope Q_scope.

(** For a non-empty window the returned [details] dictionary is the vote
    histogram: looking a label up gives the number of frames that voted
    for it, and a label nobody voted for is absent; [frameCount] is the
    number of frames, [votes] the winner's count, and [score] repeats
    [confidence]. *)
Theorem aggregateFrames_details_histogram (frames : list Frame) :
  frames <> [] ->
  frameCount (aggregateFrames frames) = List.length frames /\
  votes (aggregateFrames frames) =
    Some (votes_for (a_label (aggregateFrames frames)) frames) /\
  a_score (aggregateFrames frames) = confidence (aggregateFrames frames) /\
  exists d,
    details (aggregateFrames frames) = Some d /\
    forall l,
      obj_get d l =
      match votes_for l frames with
      | O => None
      | S n => Some (S n)
      end.
Proof.
  intros Hne. unfold aggregateFrames.
  destruct frames as [|f0 fs] eqn:Hfr; [contradiction|]. rewrite <- Hfr in *.
  destruct (fold_left count_frame frames ([], [])) as [vs ss] eqn:Htally.
  destruct (fold_left pick_winner vs ("neutral"%string, O)) as [w m] eqn:Hwin.
  destruct (winner_spec frames vs ss w m Hne Htally Hwin) as (Hm & _).
  cbn [frameCount votes a_score confidence details a_label].
  repeat split; [now rewrite Hm|].
  exists vs. split; [reflexivity|].
  intros l. destruct (forEach_tallied frames) as [_ Hall]. rewrite Htally in Hall.
  specialize (Hall l). cbn [fst snd] in Hall.
  destruct (votes_for l frames); tauto.
Qed.

Lemma aggregateFrames_details_histogram_witness :
  frameCount (aggregateFrames three_frames) = 3%nat /\
  votes (aggregateFrames three_frames) =
    Some (votes_for (a_label (aggregateFrames three_frames)) three_frames).
Proof.
  destruct (aggregateFrames_details_histogram three_frames) as (H1 & H2 & _);
    [discriminate|].
  exact (conj H1 H2).
Defined.

Lemma mean_nonneg (l : list Q) :
  l <> [] -> (forall x, In x l -> 0 <= x) -> 0 <= mean l.
Proof.
  intros Hne H. unfold mean.
  assert (Hpos : 0 < Qnat (List.length l)).
  { apply Qnat_pos. destruct l; [contradiction | simpl; lia]. }
  apply Qle_shift_div_l; [exact Hpos|].
  assert (Hs : 0 <= fold_right Qplus 0 l).
  { clear Hne Hpos. induction l as [|x l IH]; simpl; [lra|].
    assert (0 <= x) by (apply H; now left).
    assert (0 <= fold_right Qplus 0 l) by (apply IH; intros; apply H; now right).
    lra. }
  lra.
Qed.

(** The consensus factor never raises the confidence: with scores that
    are not negative, the aggregated confidence is at most the mean score
    of the winning frames and at least 0.7 times that mean; it equals the
    mean exactly when every frame voted for the winner. *)
Theorem aggregateFrames_never_boosts (frames : list Frame) :
  frames <> [] ->
  (forall f, In f frames -> 0 <= score f) ->
  let r := aggregateFrames frames in
  let winners := map score (voters (a_label r) frames) in
  (7 # 10) * mean winners <= confidence r /\
  confidence r <= mean winners /\
  (votes_for (a_label r) frames = List.length frames -> confidence r == mean winners).
Proof.
  intros Hne Hpos r winners. subst winners r.
  unfold aggregateFrames.
  destruct frames as [|f0 fs] eqn:Hfr; [contradiction|]. rewrite <- Hfr in *.
  destruct (fold_left count_frame frames ([], [])) as [vs ss] eqn:Htally.
  destruct (fold_left pick_winner vs ("neutral"%string, O)) as [w m] eqn:Hwin.
  destruct (winner_spec frames vs ss w m Hne Htally Hwin) as (Hm & Hmpos & Hle & Hsc).
  rewrite Hsc. cbn [a_label confidence]. rewrite <- Hm.
  assert (Hconf :
    Js.sum (map (fun f => num_or (score f) 0) (voters w frames)) /
      Qnat (List.length (map (fun f => num_or (score f) 0) (voters w frames)))
    == mean (map score (voters w frames))).
  { unfold mean. rewrite sum_fold_right, sum_num_or, !length_map. reflexivity. }
  rewrite Hconf.
  assert (Hmean : 0 <= mean (map score (voters w frames))).
  { apply mean_nonneg.
    - intros Hnil. apply (f_equal (@List.length Q)) in Hnil.
      rewrite length_map in Hnil. fold (votes_for w frames) in Hnil.
      simpl in Hnil. lia.
    - intros x Hx. apply in_map_iff in Hx as (f & <- & Hf).
      apply filter_In in Hf as [Hf _]. auto. }
  assert (Hn : 0 < Qnat (List.length frames)).
  { apply Qnat_pos. pose proof (votes_for_le_length w frames). lia. }
  assert (Hr0 : 0 <= Qnat m / Qnat (List.length frames)).
  { apply Qle_shift_div_l; [exact Hn|]. pose proof (Qnat_pos m Hmpos). lra. }
  assert (Hr1 : Qnat m / Qnat (List.length frames) <= 1).
  { apply Qle_shift_div_r; [exact Hn|].
    assert (Hml : (m <= List.length frames)%nat)
      by (rewrite Hm; apply votes_for_le_length).
    pose proof (Qnat_le _ _ Hml). lra. }
  repeat split; try nra.
  intros Hall. rewrite Hall.
  assert (Hone : Qnat (List.length frames) / Qnat (List.length frames) == 1)
    by (field; lra).
  rewrite Hone. ring.
Qed.

Lemma aggregateFrames_never_boosts_witness :
  confidence (aggregateFrames three_frames) <=
  mean (map score (voters (a_label (aggregateFrames three_frames)) three_frames)).
Proof.
  refine (proj1 (proj2 (aggregateFrames_never_boosts three_frames _ _))).
  - discriminate.
  - intros f [<-|[<-|[<-|[]]]]; discriminate.
Defined.

End AggregateFields.

(** ** The loudness probe: bounds and the rolling window *)

Section ProbeFacts.
Import SpeechEmotion.
Local Open Scope Q_scope.

Lemma adaptive_in_bounds x :
  SILENCE_RMS_MIN <= Qmin SILENCE_RMS_MAX (Qmax SILENCE_RMS_MIN x) <= SILENCE_RMS_MAX.
Proof.
  split; [|apply Q.le_min_l].
  apply Q.min_glb; [unfold SILENCE_RMS_MIN, SILENCE_RMS_MAX; lra | apply Q.le_max_l].
Qed.

(** Whatever the history, the threshold a probe reports lies between
    [SILENCE_RMS_MIN] and [SILENCE_RMS_MAX]; voice is detected only when
    the average reaches that threshold and the dynamic range exceeds
    0.002; and the reported confidence is 1 when voice is detected and 0
    otherwise, never a value in between. *)
Theorem precheckLoudness_verdict (g : Globals) (m : Measurement) :
  let vad := fst (precheckLoudness g m) in
  SILENCE_RMS_MIN <= threshold vad <= SILENCE_RMS_MAX /\
  (hasVoice vad = true ->
   threshold vad <= rmsAvg m /\ (2 # 1000) < rmsDynamic m /\ vad_confidence vad == 1) /\
  (hasVoice vad = false -> vad_confidence vad == 0).
Proof.
  unfold precheckLoudness. cbv zeta. cbn [fst threshold hasVoice vad_confidence].
  match goal with
  | |- context [Qmin SILENCE_RMS_MAX (Qmax SILENCE_RMS_MIN ?x)] =>
      pose proof (adaptive_in_bounds x) as Hb;
      set (adaptive := Qmin SILENCE_RMS_MAX (Qmax SILENCE_RMS_MIN x)) in *
  end.
  split; [exact Hb|].
  destruct (Qle_bool adaptive (rmsAvg m)) eqn:E1; cbn [andb].
  - destruct (Js.Qltb (2 # 1000) (rmsDynamic m)) eqn:E2.
    + split; [|discriminate]. intros _.
      apply Qle_bool_iff in E1. apply Qltb_true in E2.
      repeat split; auto.
      assert (Hpos : 0 < adaptive) by (unfold SILENCE_RMS_MIN in Hb; lra).
      assert (Hge : 1 <= rmsAvg m / adaptive)
        by (apply Qle_shift_div_l; [exact Hpos | lra]).
      destruct (Q.min_spec 1 (rmsAvg m / adaptive)) as [[_ E]|[Hle E]];
        rewrite E; lra.
    + split; [discriminate | reflexivity].
  - split; [discriminate | reflexivity].
Qed.

Lemma probe_all_snoc ms m g :
  probe_all (ms ++ [m]) g = snd (precheckLoudness (probe_all ms g) m).
Proof. unfold probe_all. now rewrite fold_left_app. Qed.

Lemma last_n_nil {A : Type} (n : nat) : last_n n (@nil A) = [].
Proof. reflexivity. Qed.

(** After any sequence of probes from the initial state the window holds
    exactly the last ten average readings, oldest first, and so never more
    than ten. *)
Theorem recentRMS_is_last_ten (ms : list Measurement) :
  recentRMS (vadState (probe_all ms initial_globals)) = last_n 10 (map rmsAvg ms) /\
  (List.length (recentRMS (vadState (probe_all ms initial_globals))) <= 10)%nat.
Proof.
  assert (H : recentRMS (vadState (probe_all ms initial_globals)) =
              last_n 10 (map rmsAvg ms)).
  { induction ms as [|m ms IH] using rev_ind; [reflexivity|].
    rewrite probe_all_snoc, map_app. simpl map.
    unfold precheckLoudness. cbv zeta. cbn [snd vadState recentRMS].
    rewrite IH. apply window_rolls. }
  split; [exact H|].
  rewrite H. unfold last_n. rewrite length_skipn. lia.
Qed.

End ProbeFacts.

(** ** The audio loop: what every exit does *)

Section LoopExits.
Import SpeechEmotion.
Local Open Scope Q_scope.

Lemma updates_app a b : updates (a ++ b) = (updates a ++ updates b)%list.
Proof. unfold updates. apply flat_map_app. Qed.

Lemma updates_reschedule env ms : updates (reschedule env ms) = [].
Proof. unfold reschedule. now destruct (still_enabled env). Qed.

Lemma scheduled_cons_other e l :
  match e with Schedule _ => False | _ => True end ->
  scheduled (e :: l) = scheduled l.
Proof. destruct e; simpl; tauto. Qed.

(** A run of the loop that starts (the hook is enabled, not cleaning up
    and not already running) never ends idle, always releases the
    [running] flag, and schedules exactly one next run while the hook
    stays enabled and none once it is disabled. *)
Theorem loop_releases_and_reschedules (room : string) (env : LoopEnv) (s : Sched) :
  enabledRef s = true -> cleanupRef s = false -> runningRef s = false ->
  fst (fst (loop room env s)) <> Idle /\
  runningRef (snd (loop room env s)) = false /\
  (still_enabled env = true ->
   exists ms, scheduled (snd (fst (loop room env s))) = [ms]) /\
  (still_enabled env = false -> scheduled (snd (fst (loop room env s))) = []).
Proof.
  intros Hen Hcl Hrun.
  assert (Hfin : forall t, runningRef (finally t) = runningRef t).
  { intros t. unfold finally. now destruct (MAX_CONSEC_FAILS <=? failsRef t)%nat. }
  assert (Hend : forall ms : Q,
    (still_enabled env = true ->
       exists m, (if still_enabled env then [ms] else []) = [m]) /\
    (still_enabled env = false -> (if still_enabled env then [ms] else []) = [])).
  { intros ms. split; intros ->; eauto. }
  unfold loop. rewrite Hen, Hcl, Hrun. cbn [negb orb].
  destruct (negb (hasAudio env)).
  { cbn [fst snd]. rewrite Hfin, scheduled_app, scheduled_pushNeutral, scheduled_reschedule.
    repeat split; try discriminate; apply Hend. }
  destruct (negb (PepperState.isPepperAvailableForAudio room (gate_reply env))).
  { cbn [fst snd]. rewrite Hfin.
    rewrite scheduled_cons_other by exact I.
    rewrite !scheduled_app, scheduled_pushNeutral, scheduled_reschedule.
    repeat split; try discriminate; apply Hend. }
  assert (Hback : forall reason done s0,
    scheduled done = [] ->
    let t := back_off env reason done s0 in
    fst (fst (let '(o, effects, s1) := t in (o, effects, finally s1))) <> Idle /\
    runningRef (snd (let '(o, effects, s1) := t in (o, effects, finally s1))) = false /\
    (still_enabled env = true ->
     exists ms, scheduled (snd (fst (let '(o, effects, s1) := t in (o, effects, finally s1)))) = [ms]) /\
    (still_enabled env = false ->
     scheduled (snd (fst (let '(o, effects, s1) := t in (o, effects, finally s1)))) = [])).
  { intros reason done s0 Hdone. unfold back_off, bumpBackoff. cbn [fst snd].
    rewrite Hfin, !scheduled_app, Hdone, scheduled_pushNeutral, scheduled_reschedule.
    repeat split; try discriminate; apply Hend. }
  destruct (measurement env) as [m|]; [|apply Hback; reflexivity].
  destruct (precheckLoudness (globals (set_running true s)) m) as [vad g].
  destruct (negb (hasVoice vad)).
  { unfold on_silence. cbn [fst snd].
    rewrite Hfin, !scheduled_app, scheduled_pushSilence, scheduled_reschedule.
    repeat split; try discriminate; apply Hend. }
  unfold on_voice.
  destruct (negb (recorded env)); [apply Hback; reflexivity|].
  destruct (reply env) as [|status json text]; [apply Hback; reflexivity|].
  destruct (responseOrErrorIsInsufficient status text json None);
    [apply Hback; reflexivity|].
  cbn [fst snd]. rewrite Hfin, !scheduled_app, scheduled_reschedule.
  change (scheduled [GateQuery room; Precheck]) with (@nil Q).
  change (scheduled [RecordBurst]) with (@nil Q).
  change (scheduled [Classify room]) with (@nil Q).
  destruct json as [j|]; [destruct (_ && _)|]; cbn [scheduled flat_map app];
    repeat split; try discriminate; apply Hend.
Qed.

Lemma loop_releases_and_reschedules_witness :
  runningRef (snd (loop "test" failing_cycle (initial_sched INTERVAL_MS true))) = false.
Proof.
  exact (proj1 (proj2 (loop_releases_and_reschedules "test" failing_cycle
                         (initial_sched INTERVAL_MS true) eq_refl eq_refl eq_refl))).
Defined.

Lemma updates_pushNeutral s reason :
  onUpdateRef s = true ->
  updates (pushNeutral s reason) = [Fallback "neutral" (5 # 10) reason "lstm-tess-custom"].
Proof. intros H. unfold pushNeutral. now rewrite H. Qed.

Lemma updates_pushSilence s reason :
  onUpdateRef s = true ->
  updates (pushSilence s reason) =
    [Fallback "neutral" (35 # 100) reason "lstm-tess-custom-silence"].
Proof. intros H. unfold pushSilence. now rewrite H. Qed.

(** Every run that starts with a callback registered hands it exactly one
    update unless it succeeds: a neutral fallback with score 0.35 after
    silence, and with score 0.5 and the reason of the exit when there is no
    audio track, the gate is busy or the run fails.  A success hands over
    the classifier's JSON when the response is OK and has one, and nothing
    otherwise. *)
Theorem loop_always_reports (room : string) (env : LoopEnv) (s : Sched) :
  enabledRef s = true -> cleanupRef s = false -> runningRef s = false ->
  onUpdateRef s = true ->
  match fst (fst (loop room env s)) with
  | Idle => False
  | Silence =>
      updates (snd (fst (loop room env s))) =
        [Fallback "neutral" (35 # 100) "silence" "lstm-tess-custom-silence"]
  | NoAudioTrack =>
      updates (snd (fst (loop room env s))) =
        [Fallback "neutral" (5 # 10) "no_audio_track" "lstm-tess-custom"]
  | PepperBusy =>
      updates (snd (fst (loop room env s))) =
        [Fallback "neutral" (5 # 10) "pepper_busy" "lstm-tess-custom"]
  | Failure reason =>
      updates (snd (fst (loop room env s))) =
        [Fallback "neutral" (5 # 10) reason "lstm-tess-custom"]
  | Success =>
      exists status json text,
        reply env = ApiResponse status json text /\
        updates (snd (fst (loop room env s))) =
          match json with
          | Some j => if Js.response_ok status then [Detected j] else []
          | None => []
          end
  end.
Proof.
  intros Hen Hcl Hrun Hup.
  unfold loop. rewrite Hen, Hcl, Hrun. cbn [negb orb].
  destruct (negb (hasAudio env)).
  { cbn [fst snd]. rewrite updates_app, updates_reschedule, updates_pushNeutral by exact Hup.
    reflexivity. }
  destruct (negb (PepperState.isPepperAvailableForAudio room (gate_reply env))).
  { cbn [fst snd]. change (GateQuery room :: ?l) with ([GateQuery room] ++ l)%list.
    rewrite !updates_app, updates_reschedule, updates_pushNeutral by exact Hup.
    reflexivity. }
  assert (Hback : forall reason done s0,
    updates done = [] -> onUpdateRef s0 = true ->
    match fst (fst (let '(o, effects, s1) := back_off env reason done s0 in
                    (o, effects, finally s1))) with
    | Failure r =>
        updates (snd (fst (let '(o, effects, s1) := back_off env reason done s0 in
                           (o, effects, finally s1)))) =
        [Fallback "neutral" (5 # 10) r "lstm-tess-custom"]
    | _ => False
    end).
  { intros reason done s0 Hdone Hs0. unfold back_off, bumpBackoff. cbn [fst snd].
    rewrite !updates_app, Hdone, updates_reschedule, updates_pushNeutral by exact Hs0.
    reflexivity. }
  destruct (measurement env) as [m|].
  2: { specialize (Hback "unexpected_error"%string [GateQuery room; Precheck]
                    (set_running true s) eq_refl Hup).
       destruct (fst (fst _)); try contradiction; exact Hback. }
  destruct (precheckLoudness (globals (set_running true s)) m) as [vad g].
  destruct (negb (hasVoice vad)).
  { unfold on_silence. cbn [fst snd].
    rewrite !updates_app, updates_reschedule, updates_pushSilence by exact Hup.
    reflexivity. }
  unfold on_voice.
  destruct (negb (recorded env)).
  { match goal with
    | |- context [back_off env ?r ?d ?s0] =>
        specialize (Hback r d s0 eq_refl Hup)
    end.
    destruct (fst (fst _)); try contradiction; exact Hback. }
  destruct (reply env) as [|status json text] eqn:Hreply.
  { match goal with
    | |- context [back_off env ?r ?d ?s0] =>
        specialize (Hback r d s0 eq_refl Hup)
    end.
    destruct (fst (fst _)); try contradiction; exact Hback. }
  destruct (responseOrErrorIsInsufficient status text json None).
  { match goal with
    | |- context [back_off env ?r ?d ?s0] =>
        specialize (Hback r d s0 eq_refl Hup)
    end.
    destruct (fst (fst _)); try contradiction; exact Hback. }
  cbn [fst snd]. exists status, json, text. split; [reflexivity|].
  rewrite !updates_app, updates_reschedule.
  cbn [onUpdateRef resetBackoff set_globals set_quietHits set_running]. rewrite Hup.
  destruct json as [j|]; [|reflexivity].
  rewrite andb_true_r. destruct (Js.response_ok status); reflexivity.
Qed.

Lemma loop_always_reports_witness :
  updates (snd (fst (loop "test" failing_cycle (initial_sched INTERVAL_MS true)))) =
  [Fallback "neutral" (5 # 10) "fetch_error" "lstm-tess-custom"].
Proof.
  exact (loop_always_reports "test" failing_cycle (initial_sched INTERVAL_MS true)
           eq_refl eq_refl eq_refl eq_refl).
Defined.

End LoopExits.

Section FailureDelays.
Import SpeechEmotion.
Local Open Scope Z_scope.

(** In a reachable state a failure is retried after 4000, 8000 or 16000
    ms: twice the base doubled once per failure already counted.  The cap
    [BACKOFF_MAX] is never reached. *)
Theorem failure_delay_exact (room : string) (s : Sched) (env : LoopEnv) :
  reachable room s ->
  still_enabled env = true ->
  (exists reason, fst (fst (loop room env s)) = Failure reason) ->
  scheduled (snd (fst (loop room env s))) =
    [inject_Z (BACKOFF_BASE * 2 ^ (Z.of_nat (failsRef s) + 1))] /\
  (BACKOFF_BASE * 2 ^ (Z.of_nat (failsRef s) + 1) < BACKOFF_MAX)%Z /\
  (failsRef s < MAX_CONSEC_FAILS)%nat.
Proof.
  intros Hreach Hen [reason Hf].
  destruct (reachable_backoff room s Hreach) as [Hfails Hback].
  pose proof (loop_backoff room env s) as H. cbv zeta in H.
  rewrite Hf, Hen in H. destruct H as [Hs _]. rewrite Hs.
  unfold MAX_CONSEC_FAILS, BACKOFF_BASE, BACKOFF_MAX in *.
  assert (Hcases : failsRef s = 0%nat \/ failsRef s = 1%nat \/ failsRef s = 2%nat)
    by lia.
  destruct Hcases as [E|[E|E]]; rewrite E in *; rewrite Hback;
    repeat split; try reflexivity; try lia.
Qed.

Lemma failure_delay_exact_witness :
  scheduled (snd (fst (loop "test" failing_cycle (initial_sched INTERVAL_MS true)))) =
  [inject_Z (BACKOFF_BASE * 2 ^ (Z.of_nat 0 + 1))].
Proof.
  exact (proj1 (failure_delay_exact "test" (initial_sched INTERVAL_MS true) failing_cycle
                  (reachable_initial "test" INTERVAL_MS true) eq_refl
                  (ex_intro _ "fetch_error"%string eq_refl))).
Defined.
End FailureDelays.

(** ** Normalization, cancellation and the poll's guard *)

Section NormalizeMore.
Import Js PepperEmotionClient.
Local Open Scope string_scope.

Lemma normalizeEmotion_cases (label : option string) :
  normalizeEmotion label = "happy" \/ normalizeEmotion label = "anger" \/
  normalizeEmotion label = "sad" \/ normalizeEmotion label = "surprise" \/
  normalizeEmotion label = "disgust" \/ normalizeEmotion label = "fear" \/
  normalizeEmotion label = "neutral".
Proof.
  unfold normalizeEmotion. destruct label as [[|c l]|]; auto 10.
  repeat match goal with
         | |- context [if ?b then _ else _] => destruct b
         end; auto 10.
Qed.

(** Normalizing is idempotent: a label that has been normalized is left
    as it is by a second normalization, so a caller may normalize a label
    that already went through [normalizeEmotion]. *)
Theorem normalizeEmotion_idempotent (label : option string) :
  normalizeEmotion (Some (normalizeEmotion label)) = normalizeEmotion label.
Proof.
  destruct (normalizeEmotion_cases label) as [H|[H|[H|[H|[H|[H|H]]]]]];
    rewrite H; reflexivity.
Qed.

End NormalizeMore.

Section CancelledWindow.
Import FaceYolo.

(** A window that finds itself cancelled at entry, after the capture phase
    or after the analysis phase publishes nothing and does not re-arm its
    timer: the state is left as it was and the run performs no [setState]
    and no [setTimeout]. *)
Theorem captureWindow_cancelled_is_silent (room : string) (env : WindowEnv)
    (s : HookState) :
  cancelled_at_entry env = true \/
  PepperState.isPepperAvailable room (gate_reply env) = true /\
  (cancelled_after_capture env = true \/ cancelled_after_analysis env = true) ->
  snd (captureWindow room env s) = s /\
  forall e, In e (fst (captureWindow room env s)) ->
            e = GateQuery room \/ e = CaptureFrame \/ e = ClassifyFrame.
Proof.
  assert (Hrep : forall n e, In e (repeat CaptureFrame n) -> e = CaptureFrame).
  { intros n e H. now apply repeat_spec in H. }
  assert (Hmap : forall (l : list (option Frame)) e,
            In e (map (fun _ => ClassifyFrame) l) -> e = ClassifyFrame).
  { intros l e H. apply in_map_iff in H as (x & <- & _). reflexivity. }
  unfold captureWindow. intros [Hc | [Hgate Hc]].
  - rewrite Hc. split; [reflexivity | intros e []].
  - destruct (cancelled_at_entry env); [split; [reflexivity | intros e []]|].
    rewrite Hgate. cbn [negb].
    destruct (cancelled_after_capture env).
    + split; [reflexivity|]. intros e [<-|H];
        [auto | right; left; exact (Hrep _ _ H)].
    + destruct Hc as [Hc|Hc]; [discriminate|]. rewrite Hc.
      split; [reflexivity|]. intros e H.
      change (GateQuery room :: ?l ++ ?m) with ((GateQuery room :: l) ++ m) in H.
      apply in_app_or in H as [[<-|H]|H];
        [auto | right; left; exact (Hrep _ _ H) | right; right; exact (Hmap _ _ H)].
Qed.

Lemma captureWindow_cancelled_is_silent_witness :
  snd (captureWindow "test"
         (mkWindowEnv false (PepperState.Body (Some 1%Z)) 60 true [] false false)
         initial_state) = initial_state.
Proof.
  refine (proj1 (captureWindow_cancelled_is_silent "test"
                   (mkWindowEnv false (PepperState.Body (Some 1%Z)) 60 true [] false false)
                   initial_state _)).
  right. split; [reflexivity | left; reflexivity].
Defined.

End CancelledWindow.

Section FusionGuard.
Import EmotionFusion.
Local Open Scope Z_scope.

(** A call of [performFusion] made with no room, with the hook disabled
    or while another call is in flight does nothing at all; every other
    call leaves [isProcessingRef] released, whichever way it ends. *)
Theorem performFusion_guard_and_release (room : string) (enabled onUpdate : bool)
    (env : Env) (r : Refs) (h : Hook) :
  (room = ""%string \/ enabled = false \/ isProcessingRef r = true ->
   performFusion room enabled onUpdate env r h = ([], r, h)) /\
  (isProcessingRef r = false ->
   isProcessingRef (snd (fst (performFusion room enabled onUpdate env r h))) = false).
Proof.
  split.
  - intros [-> | [-> | H]]; unfold performFusion.
    + reflexivity.
    + now rewrite orb_true_r.
    + rewrite H. now destruct (_ || _).
  - intros Hfree. unfold performFusion.
    destruct (String.eqb room "" || negb enabled); [exact Hfree|].
    rewrite Hfree.
    destruct (negb (PepperState.isPepperAvailable room (gate_reply env))); [reflexivity|].
    destruct (now env - lastCheck r <? 2000); [reflexivity|].
    assert (Hcatch : forall m d r0 h0,
              isProcessingRef (snd (fst (catch m d r0 h0))) = false).
    { intros m d r0 h0. unfold catch. destruct m; [reflexivity|].
      destruct (Js.includes _ _); reflexivity. }
    assert (Hatt : forall d r0 h0,
              isProcessingRef (snd (fst (attempt_fuse room onUpdate env d r0 h0))) = false).
    { intros d r0 h0. unfold attempt_fuse.
      destruct (fuse env) as [m | st det | m | data]; try apply Hcatch.
      - destruct (st =? 400); [reflexivity | apply Hcatch].
      - destruct (negb _ || _); reflexivity. }
    destruct (stats env) as [m | st | m | st]; try apply Hcatch; try apply Hatt.
    destruct (negb (has_both st)); [reflexivity|].
    destruct (over_10000 _ || over_10000 _); [reflexivity | apply Hatt].
Qed.

End FusionGuard.
